(** * The chat client's streaming engine and version tree

    A shallow embedding of
    - [chat-client/src/lib/llm.ts]  ([streamCompletion]), module [Llm];
    - [chat-client/src/hooks/useChatHistory.ts] ([updateSession],
      [addSession]) and [chat-client/src/App.tsx] ([processGeneration] and
      its three callbacks, [handleSendMessage], [handleRegenerate],
      [handleVersionChange]), module [App].

    Conventions.  A JavaScript string is a [string]; one character stands for
    one UTF-16 code unit (the model covers the code units below 256).  An
    optional property ([undefined] or [null]) is an [option].  JavaScript
    numbers that hold counts, indices and millisecond clock readings are
    integers ([Z], [N], [nat]); the two floating-point statistics (seconds
    and tokens per second) are computed in exact rationals ([Q]).  A [throw]
    is an explicit error result. *)

From Stdlib Require Import ZArith QArith_base Ascii String List Lia DecimalString.
From stdpp Require Import base tactics option list strings.
From Stdlib Require Import Sorted.

Local Open Scope Z_scope.

(** ** JavaScript strings *)

Module Js.

(** Truthiness of an optional string: [undefined], [null] and [''] are
    falsy. *)
Definition truthy (s : string) : bool :=
  match s with EmptyString => false | String _ _ => true end.

(** [a || d] where [a] is an optional string property. *)
Definition or (a : option string) (d : string) : string :=
  match a with
  | Some s => if truthy s then s else d
  | None => d
  end.

(** White space and line terminators removed by [String.prototype.trim]. *)
Definition isWhiteSpace (c : ascii) : bool :=
  match c with
  | "009" | "010" | "011" | "012" | "013" | " " | "160" => true
  | _ => false
  end%char.

Fixpoint trimStart (s : string) : string :=
  match s with
  | EmptyString => EmptyString
  | String c s' => if isWhiteSpace c then trimStart s' else s
  end.

Definition trimEnd (s : string) : string :=
  String.rev (trimStart (String.rev s)).

Definition trim (s : string) : string := trimEnd (trimStart s).

Definition startsWith (s p : string) : bool := String.prefix p s.

(** [s.slice(n)] for [0 <= n]. *)
Fixpoint slice (n : nat) (s : string) : string :=
  match n, s with
  | O, _ => s
  | S n', String _ s' => slice n' s'
  | S _, EmptyString => EmptyString
  end.

(** [s.split(sep)] for a one-character separator: never the empty list. *)
Fixpoint split (sep : ascii) (s : string) : list string :=
  match s with
  | EmptyString => [EmptyString]
  | String c s' =>
      if Ascii.eqb c sep then EmptyString :: split sep s'
      else match split sep s' with
           | h :: t => String c h :: t
           | [] => [String c EmptyString]
           end
  end.

(** [a.pop() || ''] on an array of strings. *)
Definition pop_or_empty (l : list string) : string := List.last l EmptyString.

(** What is left of the array after [a.pop()]. *)
Definition popped (l : list string) : list string := removelast l.

(** Number of positions of [s] at which [pat] occurs. *)
Fixpoint occurrences (pat s : string) : nat :=
  match s with
  | EmptyString => 0%nat
  | String _ s' =>
      ((if String.prefix pat s then 1 else 0) + occurrences pat s')%nat
  end.

(** [s] has no character [c]. *)
Fixpoint lacks (c : ascii) (s : string) : bool :=
  match s with
  | EmptyString => true
  | String x s' => negb (Ascii.eqb x c) && lacks c s'
  end.

(** [b] extends [a]: [b.startsWith(a)] as a proposition. *)
Definition extends (a b : string) : Prop := exists ext, b = a +:+ ext.

(** Writing [a[i] = v] on an array that may have holes: JavaScript grows
    the array as needed, leaving holes before the new element. *)
Definition array_set {A} (l : list (option A)) (i : nat) (v : A)
  : list (option A) :=
  if decide (i < length l)%nat then <[i := Some v]> l
  else l ++ replicate (i - length l) None ++ [Some v].

(** Reading [a[i]]: [undefined] for a hole and out of range. *)
Definition array_get {A} (l : list (option A)) (i : nat) : option A :=
  mjoin (l !! i).

(** Reading [a[i]] at an integer that may be negative: a negative index
    names no element. *)
Definition array_at {A} (l : list (option A)) (i : Z) : option A :=
  if i <? 0 then None else array_get l (Z.to_nat i).

End Js.

(** ** [lib/llm.ts] *)

Module Llm.

Record Error := { name : string; message : string }.

(** The rejection of an aborted [fetch] or [read]: a [DOMException] whose
    name is [AbortError]. *)
Definition isAbortError (e : Error) : bool := String.eqb (name e) "AbortError".

(** The properties read from a [delta] or [message] object. *)
Record Fields := {
  f_content : option string;
  f_reasoning_content : option string;
  f_reasoning : option string
}.

Record Choice := { delta : option Fields; c_message : option Fields }.

Record Usage := { completion_tokens : option Z }.

(** A parsed response document; [choices] is [None] when the document has
    no such property. *)
Record Document := { choices : option (list Choice); usage : option Usage }.

(** [{ tokenCount, duration, tps }] *)
Record Stats := { tokenCount : Z; duration : Q; tps : Q }.

(** The three callbacks of [StreamOptions]. *)
Inductive Notification :=
| onUpdate (content : string) (stats : Stats)
| onFinish (content : string) (stats : Stats)
| onError (error : Error).

Definition isTerminal (n : Notification) : bool :=
  match n with onUpdate _ _ => false | _ => true end.

Definition contentOf (n : Notification) : option string :=
  match n with
  | onUpdate c _ | onFinish c _ => Some c
  | onError _ => None
  end.

(** How the body's reader ends: [{done: true}] or a rejected [read()]. *)
Inductive ReadEnd := ReadDone | ReadRejects (e : Error).

(** The decoded chunks a body delivers, in order, and how it ends. *)
Record Body := { chunks : list string; ending : ReadEnd }.

Record Response := {
  ok : bool;
  status : N;
  statusText : string;
  json : Error + Document;      (* [await response.json()] *)
  body : option Body            (* [response.body?.getReader()] *)
}.

Inductive FetchResult :=
| FetchRejects (e : Error)
| FetchResolves (r : Response).

(** [(t1 - t0) / 1000] *)
Definition seconds (t0 t1 : Z) : Q := Qmake (t1 - t0) 1000.

(** [duration > 0 ? tokenCount / duration : 0] *)
Definition perSecond (count : Z) (d : Q) : Q :=
  if negb (Qle_bool d (inject_Z 0)) then Qdiv (inject_Z count) d
  else inject_Z 0.

(** [Math.ceil(content.length / 4)] *)
Definition estimateTokens (content : string) : Z :=
  (Z.of_nat (String.length content) + 3) / 4.

(** The local variables of the streaming loop, with what the loop has
    done to the outside so far: the number of [Date.now()] calls, the
    callbacks invoked (oldest first) and the [console.error] lines. *)
Record Loop := {
  buffer : string;
  accumulatedContent : string;
  lastUiUpdate : Z;
  l_tokenCount : Z;
  hasStartedReasoning : bool;
  hasEndedReasoning : bool;
  clockReads : nat;
  delivered : list Notification;
  console : list string
}.

Section Engine.

(** [JSON.parse]: [None] when it throws. *)
Variable JSON_parse : string -> option Document.

(** [Date.now()]: the reading returned by the [n]-th call. *)
Variable Date_now : nat -> Z.

Definition console_error (st : Loop) (payload : string) : Loop :=
  {| buffer := buffer st;
     accumulatedContent := accumulatedContent st;
     lastUiUpdate := lastUiUpdate st;
     l_tokenCount := l_tokenCount st;
     hasStartedReasoning := hasStartedReasoning st;
     hasEndedReasoning := hasEndedReasoning st;
     clockReads := clockReads st;
     delivered := delivered st;
     console := console st ++ [payload] |}.

(** [data.choices[0]?.delta?.content || ''] and
    [data.choices[0]?.delta?.reasoning_content ||
     data.choices[0]?.delta?.reasoning || ''];
    [None] when [data.choices[0]] throws. *)
Definition deltas (data : Document) : option (string * string) :=
  match choices data with
  | None => None
  | Some cs =>
      let d := cs !! 0%nat ≫= delta in
      let deltaContent := Js.or (d ≫= f_content) "" in
      let deltaReasoning :=
        Js.or (d ≫= f_reasoning_content) (Js.or (d ≫= f_reasoning) "") in
      Some (deltaContent, deltaReasoning)
  end.

(** The two [if] blocks that merge one event into the text. *)
Definition mergeReasoning (deltaReasoning : string) (st : Loop) : Loop :=
  if Js.truthy deltaReasoning then
    {| buffer := buffer st;
       accumulatedContent :=
         (if hasStartedReasoning st then accumulatedContent st
          else accumulatedContent st +:+ "<think>") +:+ deltaReasoning;
       lastUiUpdate := lastUiUpdate st;
       l_tokenCount := l_tokenCount st;
       hasStartedReasoning := true;
       hasEndedReasoning := hasEndedReasoning st;
       clockReads := clockReads st;
       delivered := delivered st;
       console := console st |}
  else st.

Definition mergeContent (deltaContent : string) (st : Loop) : Loop :=
  if Js.truthy deltaContent then
    let closing := hasStartedReasoning st && negb (hasEndedReasoning st) in
    {| buffer := buffer st;
       accumulatedContent :=
         (if closing then accumulatedContent st +:+ "</think>"
          else accumulatedContent st) +:+ deltaContent;
       lastUiUpdate := lastUiUpdate st;
       l_tokenCount := l_tokenCount st;
       hasStartedReasoning := hasStartedReasoning st;
       hasEndedReasoning := if closing then true else hasEndedReasoning st;
       clockReads := clockReads st;
       delivered := delivered st;
       console := console st |}
  else st.

(** The counting and throttled [onUpdate] of an event that carried text. *)
Definition countAndNotify (startTime : Z) (st : Loop) : Loop :=
  let tokenCount' := l_tokenCount st + 1 in
  let currentTime := Date_now (clockReads st) in
  let notify := 33 <? currentTime - lastUiUpdate st in
  let d := seconds startTime currentTime in
  {| buffer := buffer st;
     accumulatedContent := accumulatedContent st;
     lastUiUpdate := if notify then currentTime else lastUiUpdate st;
     l_tokenCount := tokenCount';
     hasStartedReasoning := hasStartedReasoning st;
     hasEndedReasoning := hasEndedReasoning st;
     clockReads := S (clockReads st);
     delivered :=
       if notify then
         delivered st ++
           [onUpdate (accumulatedContent st)
              {| tokenCount := tokenCount'; duration := d;
                 tps := perSecond tokenCount' d |}]
       else delivered st;
     console := console st |}.

(** The body of [for (const line of lines)]. *)
Definition processLine (startTime : Z) (st : Loop) (line : string) : Loop :=
  let trimmedLine := Js.trim line in
  if negb (Js.startsWith trimmedLine "data: ") then st
  else
    let dataStr := Js.slice 6 trimmedLine in
    if String.eqb dataStr "[DONE]" then st
    else
      match JSON_parse dataStr with
      | None => console_error st dataStr
      | Some data =>
          match deltas data with
          | None => console_error st dataStr
          | Some (deltaContent, deltaReasoning) =>
              let st1 := mergeReasoning deltaReasoning st in
              let st2 := mergeContent deltaContent st1 in
              if Js.truthy deltaContent || Js.truthy deltaReasoning
              then countAndNotify startTime st2
              else st2
          end
      end.

Definition set_buffer (b : string) (st : Loop) : Loop :=
  {| buffer := b;
     accumulatedContent := accumulatedContent st;
     lastUiUpdate := lastUiUpdate st;
     l_tokenCount := l_tokenCount st;
     hasStartedReasoning := hasStartedReasoning st;
     hasEndedReasoning := hasEndedReasoning st;
     clockReads := clockReads st;
     delivered := delivered st;
     console := console st |}.

(** One turn of [while (true)] on a chunk that was read. *)
Definition processChunk (startTime : Z) (st : Loop) (chunk : string) : Loop :=
  let lines := Js.split "010" (buffer st +:+ chunk) in
  fold_left (processLine startTime) (Js.popped lines)
    (set_buffer (Js.pop_or_empty lines) st).

Definition readAll (startTime : Z) (st : Loop) (cs : list string) : Loop :=
  fold_left (processChunk startTime) cs st.

(** After the loop: the forced closing tag, the final statistics and
    [onFinish]. *)
Definition finalContent (st : Loop) : string :=
  if hasStartedReasoning st && negb (hasEndedReasoning st)
  then accumulatedContent st +:+ "</think>"
  else accumulatedContent st.

Definition finish (startTime : Z) (st : Loop) : Loop :=
  let finalDuration := seconds startTime (Date_now (clockReads st)) in
  {| buffer := buffer st;
     accumulatedContent := finalContent st;
     lastUiUpdate := lastUiUpdate st;
     l_tokenCount := l_tokenCount st;
     hasStartedReasoning := hasStartedReasoning st;
     hasEndedReasoning := hasEndedReasoning st;
     clockReads := S (clockReads st);
     delivered :=
       delivered st ++
         [onFinish (finalContent st)
            {| tokenCount := l_tokenCount st; duration := finalDuration;
               tps := perSecond (l_tokenCount st) finalDuration |}];
     console := console st |}.

(** The [catch] of the whole function. *)
Definition fail (e : Error) (st : Loop) : Loop :=
  {| buffer := buffer st;
     accumulatedContent := accumulatedContent st;
     lastUiUpdate := lastUiUpdate st;
     l_tokenCount := l_tokenCount st;
     hasStartedReasoning := hasStartedReasoning st;
     hasEndedReasoning := hasEndedReasoning st;
     clockReads := clockReads st;
     delivered := delivered st ++ [onError e];
     console := console st |}.

(** The state in which the streaming loop starts; [startTime] was the
    first clock reading. *)
Definition initial : Loop :=
  {| buffer := ""; accumulatedContent := ""; lastUiUpdate := 0;
     l_tokenCount := 0; hasStartedReasoning := false;
     hasEndedReasoning := false; clockReads := 1%nat;
     delivered := []; console := [] |}.

(** The non-streaming branch, from the parsed document. *)
Definition nonStreaming (startTime : Z) (data : Document) : Loop :=
  match default [] (choices data) !! 0%nat ≫= c_message with
  | None =>
      fail {| name := "Error";
              message := "Invalid response: no message in choices" |}
        initial
  | Some message =>
      let reasoningContent :=
        Js.or (f_reasoning_content message) (Js.or (f_reasoning message) "") in
      let textContent := Js.or (f_content message) "" in
      let content :=
        if Js.truthy reasoningContent
        then "<think>" +:+ reasoningContent +:+ "</think>" +:+ textContent
        else textContent in
      let tokenCount :=
        match usage data ≫= completion_tokens with
        | Some n => if n =? 0 then estimateTokens content else n
        | None => estimateTokens content
        end in
      let d := seconds startTime (Date_now 1%nat) in
      {| buffer := ""; accumulatedContent := content; lastUiUpdate := 0;
         l_tokenCount := tokenCount; hasStartedReasoning := false;
         hasEndedReasoning := false; clockReads := 2%nat;
         delivered :=
           [onFinish content
              {| tokenCount := tokenCount; duration := d;
                 tps := perSecond tokenCount d |}];
         console := [] |}
  end.

(** [streamCompletion], from the outcome of [fetch]: the state in which
    it returns. *)
Definition streamCompletion (stream : bool) (fetched : FetchResult) : Loop :=
  let startTime := Date_now 0%nat in
  match fetched with
  | FetchRejects e => fail e initial
  | FetchResolves response =>
      if negb (ok response) then
        fail {| name := "Error";
                message :=
                  "API Error: " +:+
                  NilZero.string_of_uint (N.to_uint (status response)) +:+
                  " " +:+ statusText response |}
          initial
      else if negb stream then
        match json response with
        | inl e => fail e initial
        | inr data => nonStreaming startTime data
        end
      else
        match body response with
        | None =>
            fail {| name := "Error"; message := "Response body is null" |}
              initial
        | Some b =>
            let st := readAll startTime initial (chunks b) in
            match ending b with
            | ReadDone => finish startTime st
            | ReadRejects e => fail e st
            end
        end
  end.

End Engine.

End Llm.

(** ** [hooks/useChatHistory.ts] and [App.tsx] *)

Module App.

Inductive Role := system | user | assistant.

Inductive ReasoningEffort := low | medium | high.

(** Modelled from the spec: the [Message] and [ChatSession] types are
    declared in [lib/db.ts], which is not among the sources.  The fields
    are those of the spec's Turn and Conversation, under the names and
    with the shapes [App.tsx] reads and writes: a sibling is the
    [{ role, content, stats }] object [handleRegenerate] builds, and its
    role is optional because the spread of a missing array element has
    none. *)
Record MessageStats := {
  totalTokens : Z;
  generationTime : Q;
  tokensPerSecond : Q
}.

Record Sibling := {
  s_role : option Role;
  s_content : string;
  s_stats : option MessageStats
}.

Record Message := {
  role : Role;
  content : string;
  images : option (list string);
  stats : option MessageStats;
  siblings : option (list (option Sibling));
  siblingIndex : option nat
}.

Record ChatSession := {
  id : string;
  title : string;
  date : Z;
  s_messages : list Message;
  s_systemPrompt : string;
  s_temperature : Q;
  s_reasoningEffort : option ReasoningEffort;
  isFavorite : option bool
}.

(** The state of the component and of its two hooks' references: the
    [useState] cells the handlers below read or write, the session list of
    [useChatHistory], [abortControllerRef.current] (controllers are
    numbered in the order [new AbortController()] made them). *)
Record State := {
  messages : list Message;
  currentChatId : option string;
  isLoading : bool;
  abortControllerRef : option nat;
  controllersCreated : nat;
  sessions : list ChatSession;
  systemPrompt : string;
  temperature : Q;
  reasoningEffort : option ReasoningEffort
}.

(** What a handler asks of its collaborators. *)
Inductive Effect :=
| saveSession (s : ChatSession)
| getSessionThenUpdate (sessionId : string) (finalMessages : list Message)
| streamCompletion (messagesToUse : list Message) (sessionId : string)
    (targetIndex : option nat) (signal : nat)
| abort (controller : nat)
| console_log (text : string)
| console_error (e : Llm.Error).

Definition set_messages (ms : list Message) (st : State) : State :=
  {| messages := ms; currentChatId := currentChatId st;
     isLoading := isLoading st; abortControllerRef := abortControllerRef st;
     controllersCreated := controllersCreated st; sessions := sessions st;
     systemPrompt := systemPrompt st; temperature := temperature st;
     reasoningEffort := reasoningEffort st |}.

Definition set_sessions (ss : list ChatSession) (st : State) : State :=
  {| messages := messages st; currentChatId := currentChatId st;
     isLoading := isLoading st; abortControllerRef := abortControllerRef st;
     controllersCreated := controllersCreated st; sessions := ss;
     systemPrompt := systemPrompt st; temperature := temperature st;
     reasoningEffort := reasoningEffort st |}.

Definition set_currentChatId (c : option string) (st : State) : State :=
  {| messages := messages st; currentChatId := c;
     isLoading := isLoading st; abortControllerRef := abortControllerRef st;
     controllersCreated := controllersCreated st; sessions := sessions st;
     systemPrompt := systemPrompt st; temperature := temperature st;
     reasoningEffort := reasoningEffort st |}.

(** [setIsLoading(false); abortControllerRef.current = null] *)
Definition clearInFlight (st : State) : State :=
  {| messages := messages st; currentChatId := currentChatId st;
     isLoading := false; abortControllerRef := None;
     controllersCreated := controllersCreated st; sessions := sessions st;
     systemPrompt := systemPrompt st; temperature := temperature st;
     reasoningEffort := reasoningEffort st |}.

(** [setIsLoading(true); abortControllerRef.current = new AbortController()] *)
Definition markInFlight (st : State) : State :=
  {| messages := messages st; currentChatId := currentChatId st;
     isLoading := true; abortControllerRef := Some (controllersCreated st);
     controllersCreated := S (controllersCreated st); sessions := sessions st;
     systemPrompt := systemPrompt st; temperature := temperature st;
     reasoningEffort := reasoningEffort st |}.

(** A chat id is truthy when it is neither [null] nor empty. *)
Definition truthyId (c : option string) : option string :=
  match c with
  | Some i => if Js.truthy i then Some i else None
  | None => None
  end.

Definition find_session (i : string) (ss : list ChatSession)
  : option ChatSession :=
  List.find (fun s => String.eqb (id s) i) ss.

(** [useChatHistory]: [updateSession] and [addSession]. *)
Definition updateSession (session : ChatSession) (st : State)
  : State * list Effect :=
  (set_sessions
     (map (fun s => if String.eqb (id s) (id session) then session else s)
        (sessions st)) st,
   [saveSession session]).

Definition addSession (session : ChatSession) (st : State)
  : State * list Effect :=
  (set_sessions (session :: sessions st) st, [saveSession session]).

(** [{ ...s, messages, systemPrompt, temperature, reasoningEffort }] *)
Definition with_chat (s : ChatSession) (ms : list Message) (st : State)
  : ChatSession :=
  {| id := id s; title := title s; date := date s; s_messages := ms;
     s_systemPrompt := systemPrompt st; s_temperature := temperature st;
     s_reasoningEffort := reasoningEffort st; isFavorite := isFavorite s |}.

(** [{ ...s, messages }] *)
Definition with_messages (s : ChatSession) (ms : list Message) : ChatSession :=
  {| id := id s; title := title s; date := date s; s_messages := ms;
     s_systemPrompt := s_systemPrompt s; s_temperature := s_temperature s;
     s_reasoningEffort := s_reasoningEffort s; isFavorite := isFavorite s |}.

Definition handleStop (st : State) : State * list Effect :=
  match abortControllerRef st with
  | Some c => (clearInFlight st, [abort c])
  | None => (st, [])
  end.

(** [{ totalTokens: stats.tokenCount, generationTime: stats.duration,
      tokensPerSecond: stats.tps }] *)
Definition messageStats (stats : Llm.Stats) : MessageStats :=
  {| totalTokens := Llm.tokenCount stats;
     generationTime := Llm.duration stats;
     tokensPerSecond := Llm.tps stats |}.

(** [targetIndex !== undefined ? targetIndex : prev.length - 1]; on an
    empty list the source's index is [-1] and the model's is [0], and
    neither names an element. *)
Definition actualIndex (targetIndex : option nat) (prev : list Message) : nat :=
  match targetIndex with
  | Some t => t
  | None => (length prev - 1)%nat
  end.

(** What [onUpdate] and [onFinish] both do to the message they target. *)
Definition writeActive (msg : Message) (content : string) (stats : Llm.Stats)
  : Message :=
  let stats' := messageStats stats in
  {| role := role msg;
     content := content;
     images := images msg;
     stats := Some stats';
     siblings :=
       match siblings msg, siblingIndex msg with
       | Some sibs, Some i =>
           Some (Js.array_set sibs i
                   {| s_role := Js.array_get sibs i ≫= s_role;
                      s_content := content;
                      s_stats := Some stats' |})
       | other, _ => other
       end;
     siblingIndex := siblingIndex msg |}.

(** The function [onUpdate] passes to [setMessages]. *)
Definition onUpdate_messages (targetIndex : option nat) (content : string)
    (stats : Llm.Stats) (prev : list Message) : list Message :=
  let i := actualIndex targetIndex prev in
  match prev !! i with
  | Some msg => <[i := writeActive msg content stats]> prev
  | None => prev
  end.

Definition onUpdate (targetIndex : option nat) (content : string)
    (stats : Llm.Stats) (st : State) : State :=
  set_messages (onUpdate_messages targetIndex content stats (messages st)) st.

(** The function [onFinish] passes to [setMessages]. *)
Definition onFinish_messages (targetIndex : option nat) (content : string)
    (stats : Llm.Stats) (prev : list Message) : list Message :=
  let i := actualIndex targetIndex prev in
  match prev !! i with
  | Some msg => <[i := writeActive msg content stats]> prev
  | None => prev
  end.

Definition onFinish (sessionId : string) (targetIndex : option nat)
    (content : string) (stats : Llm.Stats) (st : State)
  : State * list Effect :=
  let finalMessages :=
    onFinish_messages targetIndex content stats (messages st) in
  (clearInFlight (set_messages finalMessages st),
   if Js.truthy sessionId then [getSessionThenUpdate sessionId finalMessages]
   else []).

(** [`**Error**: ${error.message}`] as an assistant message. *)
Definition errorMsg (error : Llm.Error) : Message :=
  {| role := assistant;
     content := "**Error**: " +:+ Llm.message error;
     images := None; stats := None; siblings := None; siblingIndex := None |}.

(** The function [onError] passes to [setMessages]. *)
Definition onError_messages (targetIndex : option nat) (error : Llm.Error)
    (prev : list Message) : list Message :=
  let i := actualIndex targetIndex prev in
  match targetIndex, prev !! i with
  | Some _, Some _ => <[i := errorMsg error]> prev
  | _, _ => prev ++ [errorMsg error]
  end.

Definition onError (targetIndex : option nat) (error : Llm.Error) (st : State)
  : State * list Effect :=
  if Llm.isAbortError error then (st, [console_log "Generation stopped by user"])
  else
    (clearInFlight
       (set_messages (onError_messages targetIndex error (messages st)) st),
     [console_error error]).

(** Routing one notification of the engine to its callback. *)
Definition notify (sessionId : string) (targetIndex : option nat)
    (n : Llm.Notification) (st : State) : State * list Effect :=
  match n with
  | Llm.onUpdate c s => (onUpdate targetIndex c s st, [])
  | Llm.onFinish c s => onFinish sessionId targetIndex c s st
  | Llm.onError e => onError targetIndex e st
  end.

(** [processGeneration] up to its call of [streamCompletion].  The
    function given to [setMessages] assigns the captured [targetIndex];
    the model runs it at once, so the callbacks see the assigned value. *)
Definition processGeneration (messagesToUse : list Message)
    (sessionId : string) (targetIndex : option nat) (st : State)
  : State * list Effect :=
  let st1 := markInFlight st in
  let signal := controllersCreated st in
  match targetIndex with
  | None =>
      let prev := messages st1 in
      (set_messages
         (prev ++ [{| role := assistant; content := ""; images := None;
                      stats := None; siblings := None;
                      siblingIndex := None |}]) st1,
       [streamCompletion messagesToUse sessionId (Some (length prev)) signal])
  | Some t =>
      (st1, [streamCompletion messagesToUse sessionId (Some t) signal])
  end.

(** [content.trim().substring(0, 30) + (content.length > 30 ? "..." : "")] *)
Definition sessionTitle (content : string) : string :=
  String.substring 0 30 (Js.trim content) +:+
  (if (30 <? String.length content)%nat then "..." else "").

(** [handleSendMessage]; [now] is the reading of [Date.now()] and [today]
    the [new Date()] of a new session. *)
Definition handleSendMessage (now today : Z) (text : string)
    (imgs : option (list string)) (st : State) : State * list Effect :=
  let userMsg :=
    {| role := user; content := text; images := imgs; stats := None;
       siblings := None; siblingIndex := None |} in
  let newMessages := messages st ++ [userMsg] in
  let st1 := set_messages newMessages st in
  let '(activeSessionId, (st2, effs)) :=
    match truthyId (currentChatId st) with
    | None =>
        let activeSessionId := NilZero.string_of_int (Z.to_int now) in
        let newSession :=
          {| id := activeSessionId; title := sessionTitle text;
             date := today; s_messages := newMessages;
             s_systemPrompt := systemPrompt st;
             s_temperature := temperature st;
             s_reasoningEffort := reasoningEffort st;
             isFavorite := None |} in
        let '(st', effs) := addSession newSession st1 in
        (activeSessionId, (set_currentChatId (Some activeSessionId) st', effs))
    | Some activeSessionId =>
        (activeSessionId,
         match find_session activeSessionId (sessions st) with
         | Some s => updateSession (with_chat s newMessages st) st1
         | None => (st1, [])
         end)
    end in
  let '(st3, effs') := processGeneration newMessages activeSessionId None st2 in
  (st3, effs ++ effs').

Definition handleRegenerate (st : State) : State * list Effect :=
  if isLoading st || (length (messages st) =? 0)%nat then (st, [])
  else
    let lastMsgIndex := (length (messages st) - 1)%nat in
    match messages st !! lastMsgIndex with
    | None => (st, [])
    | Some lastMsg =>
        match role lastMsg with
        | assistant =>
            let saved :=
              match siblings lastMsg with
              | Some sibs => sibs
              | None =>
                  [Some {| s_role := Some (role lastMsg);
                           s_content := content lastMsg;
                           s_stats := stats lastMsg |}]
              end in
            let newSibling :=
              {| s_role := Some assistant; s_content := ""; s_stats := None |} in
            let sibs := saved ++ [Some newSibling] in
            let updatedMsg :=
              {| role := role lastMsg; content := "";
                 images := images lastMsg; stats := None;
                 siblings := Some sibs;
                 siblingIndex := Some (length sibs - 1)%nat |} in
            let newMessages := <[lastMsgIndex := updatedMsg]> (messages st) in
            let context := take (length (messages st) - 1) (messages st) in
            let st1 := set_messages newMessages st in
            match truthyId (currentChatId st) with
            | Some chat =>
                processGeneration context chat (Some lastMsgIndex) st1
            | None => (st1, [])
            end
        | user =>
            match truthyId (currentChatId st) with
            | Some chat => processGeneration (messages st) chat None st
            | None => (st, [])
            end
        | system => (st, [])
        end
    end.

(** [handleVersionChange]; [None] when [messages[index]] is [undefined]
    and reading its [siblings] throws. *)
Definition handleVersionChange (index : nat) (newVersionIndex : Z) (st : State)
  : option (State * list Effect) :=
  match messages st !! index with
  | None => None
  | Some msg =>
      match siblings msg ≫= (fun sibs => Js.array_at sibs newVersionIndex) with
      | None => Some (st, [])
      | Some targetVersion =>
          let updatedMsg :=
            {| role := role msg; content := s_content targetVersion;
               images := images msg; stats := s_stats targetVersion;
               siblings := siblings msg;
               siblingIndex := Some (Z.to_nat newVersionIndex) |} in
          let newMessages := <[index := updatedMsg]> (messages st) in
          let st1 := set_messages newMessages st in
          Some
            match truthyId (currentChatId st) with
            | Some chat =>
                match find_session chat (sessions st) with
                | Some s => updateSession (with_messages s newMessages) st1
                | None => (st1, [])
                end
            | None => (st1, [])
            end
      end
  end.

End App.


(** ** What a body carries: lines, events and their text *)

Module Wire.

Section Events.

Variable JSON_parse : string -> option Llm.Document.

(** The lines the loop hands to its [for] body, chunk after chunk, when it
    starts with [buf] carried over. *)
Fixpoint framedLines (buf : string) (cs : list string) : list string :=
  match cs with
  | [] => []
  | c :: cs' =>
      let lines := Js.split "010" (buf +:+ c) in
      Js.popped lines ++ framedLines (Js.pop_or_empty lines) cs'
  end.

(** The payload of a line that qualifies: it starts, once trimmed, with
    [data: ] and is not the [[DONE]] sentinel. *)
Definition payloadOf (line : string) : option string :=
  let trimmedLine := Js.trim line in
  if negb (Js.startsWith trimmedLine "data: ") then None
  else
    let dataStr := Js.slice 6 trimmedLine in
    if String.eqb dataStr "[DONE]" then None else Some dataStr.


(** The event [(deltaContent, deltaReasoning)] a line carries, if any. *)
Definition eventOfLine (line : string) : option (string * string) :=
  match payloadOf line ≫= JSON_parse with
  | Some data => Llm.deltas data
  | None => None
  end.

Definition events (cs : list string) : list (string * string) :=
  omap eventOfLine (framedLines "" cs).

(** The delta text of the events in arrival order, the reasoning delta of an
    event before its answer delta. *)
Definition deltaText (evs : list (string * string)) : string :=
  fold_right (fun ev acc => ev.2 +:+ ev.1 +:+ acc) "" evs.

(** Some event carries a non-empty reasoning delta. *)
Definition hasReasoning (evs : list (string * string)) : Prop :=
  Exists (fun ev => ev.2 <> "") evs.

End Events.

(** The text of one line: its event's reasoning delta, then its answer
    delta; nothing when the line carries no event. *)
Definition lineText (JSON_parse : string -> option Llm.Document)
    (line : string) : string :=
  match eventOfLine JSON_parse line with
  | Some (deltaContent, deltaReasoning) => deltaReasoning +:+ deltaContent
  | None => ""
  end.

Definition lineReasons (JSON_parse : string -> option Llm.Document)
    (line : string) : bool :=
  match eventOfLine JSON_parse line with
  | Some (_, deltaReasoning) => Js.truthy deltaReasoning
  | None => false
  end.

(** The accumulated content is the delta text [T] seen so far, with the
    opening tag put where the reasoning started and the closing tag where it
    ended, according to the two flags. *)
Definition merged (st : Llm.Loop) (T : string) : Prop :=
  match Llm.hasStartedReasoning st, Llm.hasEndedReasoning st with
  | false, false => Llm.accumulatedContent st = T
  | true, false =>
      exists A R,
        Llm.accumulatedContent st = A +:+ "<think>" +:+ R /\ A +:+ R = T
  | true, true =>
      exists A R X,
        Llm.accumulatedContent st = A +:+ "<think>" +:+ R +:+ "</think>" +:+ X /\
        A +:+ R +:+ X = T
  | false, true => False
  end.

(** Every content delivered so far is extended by the accumulated
    content. *)
Definition behind (st : Llm.Loop) : Prop :=
  forall n c, n ∈ Llm.delivered st -> Llm.contentOf n = Some c ->
    Js.extends c (Llm.accumulatedContent st).

(** What a line adds to the console: its payload, when [JSON.parse] or the
    reading of [data.choices[0]] throws on it. *)
Definition diagnostics (JSON_parse : string -> option Llm.Document)
    (line : string) : list string :=
  match payloadOf line with
  | None => []
  | Some payload =>
      match JSON_parse payload with
      | None => [payload]
      | Some data =>
          match Llm.deltas data with
          | None => [payload]
          | Some _ => []
          end
      end
  end.

(** The loop state without the carry-over buffer and the console. *)
Definition visible (st : Llm.Loop)
  : string * Z * Z * bool * bool * nat * list Llm.Notification :=
  (Llm.accumulatedContent st, Llm.lastUiUpdate st, Llm.l_tokenCount st,
   Llm.hasStartedReasoning st, Llm.hasEndedReasoning st, Llm.clockReads st,
   Llm.delivered st).

(** The contents delivered by a run never shrink: each one is extended by
    every later one. *)
Definition growing (ns : list Llm.Notification) : Prop :=
  forall i j a b, (i < j)%nat ->
    ns !! i ≫= Llm.contentOf = Some a ->
    ns !! j ≫= Llm.contentOf = Some b ->
    Js.extends a b.

(** The invariant of the loop: what was delivered grows, and the
    accumulated content extends all of it. *)
Definition orderly (st : Llm.Loop) : Prop :=
  growing (Llm.delivered st) /\ behind st.

(** No terminal notification was delivered yet. *)
Definition quiet (st : Llm.Loop) : Prop :=
  Forall (fun n => Llm.isTerminal n = false) (Llm.delivered st).

(** The content of the [onFinish] a run ended with, if it ended so. *)
Definition finished (st : Llm.Loop) : option string :=
  match last (Llm.delivered st) with
  | Some (Llm.onFinish content _) => Some content
  | _ => None
  end.

(** A response whose body delivers [cs] and then ends. *)
Definition responseOf (cs : list string) : Llm.Response :=
  {| Llm.ok := true; Llm.status := 200%N; Llm.statusText := "OK";
     Llm.json := inl {| Llm.name := "TypeError"; Llm.message := "body used" |};
     Llm.body := Some {| Llm.chunks := cs; Llm.ending := Llm.ReadDone |} |}.

Definition streamOf (cs : list string) : Llm.FetchResult :=
  Llm.FetchResolves (responseOf cs).

(** The ways the cancellation token ends a request: [fetch] rejects, the
    JSON body read rejects, or a [read()] of the stream rejects, each with
    the token's [AbortError]. *)
Inductive Cancelled (e : Llm.Error) : bool -> Llm.FetchResult -> Prop :=
| cancelled_fetch stream :
    Cancelled e stream (Llm.FetchRejects e)
| cancelled_json r :
    Llm.ok r = true -> Llm.json r = inl e ->
    Cancelled e false (Llm.FetchResolves r)
| cancelled_read r b :
    Llm.ok r = true -> Llm.body r = Some b -> Llm.ending b = Llm.ReadRejects e ->
    Cancelled e true (Llm.FetchResolves r).

End Wire.

(** ** The turn's siblings mirror its active content *)

Module Tree.

(** When a turn has siblings and a sibling index, the sibling at that index
    carries the turn's own content and statistics. *)
Definition mirrored (m : App.Message) : Prop :=
  forall sibs i,
    App.siblings m = Some sibs -> App.siblingIndex m = Some i ->
    exists sib,
      Js.array_get sibs i = Some sib /\
      App.s_content sib = App.content m /\
      App.s_stats sib = App.stats m.

End Tree.

(** ** Inputs used by the examples *)

Module Demo.

Definition dq : string := String "034" "".

Definition reasoningPrefix : string :=
  "{" +:+ dq +:+ "choices" +:+ dq +:+ ":[{" +:+ dq +:+ "delta" +:+ dq +:+
  ":{" +:+ dq +:+ "reasoning_content" +:+ dq +:+ ":" +:+ dq.

Definition contentPrefix : string :=
  "{" +:+ dq +:+ "choices" +:+ dq +:+ ":[{" +:+ dq +:+ "delta" +:+ dq +:+
  ":{" +:+ dq +:+ "content" +:+ dq +:+ ":" +:+ dq.

Definition eventSuffix : string := dq +:+ "}}]}".

(** The text of a [data: ] line for a reasoning or an answer delta [t]. *)
Definition reasoningLine (t : string) : string :=
  "data: " +:+ reasoningPrefix +:+ t +:+ eventSuffix.

Definition contentLine (t : string) : string :=
  "data: " +:+ contentPrefix +:+ t +:+ eventSuffix.

Definition nl : string := String "010" "".

Definition dropEnd (n : nat) (s : string) : string :=
  String.substring 0 (String.length s - n) s.

Definition deltaDocument (content reasoning : option string) : Llm.Document :=
  {| Llm.choices :=
       Some [{| Llm.delta :=
                  Some {| Llm.f_content := content;
                          Llm.f_reasoning_content := reasoning;
                          Llm.f_reasoning := None |};
                Llm.c_message := None |}];
     Llm.usage := None |}.

(** [JSON.parse] on the two event shapes above (texts without escapes);
    anything else is taken as not parsing. *)
Definition JSON_parse (s : string) : option Llm.Document :=
  if String.prefix reasoningPrefix s then
    Some (deltaDocument None
            (Some (dropEnd 5 (Js.slice (String.length reasoningPrefix) s))))
  else if String.prefix contentPrefix s then
    Some (deltaDocument
            (Some (dropEnd 5 (Js.slice (String.length contentPrefix) s))) None)
  else None.

(** A clock that advances 50 ms per reading. *)
Definition Date_now (n : nat) : Z := 1000 + 50 * Z.of_nat n.

(** A streaming run on a body that delivers [cs] and ends. *)
Definition run (cs : list string) : Llm.Loop :=
  Llm.streamCompletion JSON_parse Date_now true (Wire.streamOf cs).

Definition abortError : Llm.Error :=
  {| Llm.name := "AbortError"; Llm.message := "The user aborted a request." |}.

Definition networkError : Llm.Error :=
  {| Llm.name := "TypeError"; Llm.message := "Failed to fetch" |}.

(** A reasoning delta that spells the opening tag. *)
Definition tagInDelta : list string := [reasoningLine "<think>" +:+ nl].

(** Reasoning, then an answer, in two chunks that split a line. *)
Definition thinkThenAnswer : list string :=
  [reasoningLine "Let me think" +:+ nl +:+ "data: ";
   contentPrefix +:+ "42" +:+ eventSuffix +:+ nl].




(** Answer deltas only, and reasoning deltas only. *)
Definition helloWorld : list string :=
  [contentLine "Hello" +:+ nl; contentLine " world" +:+ nl +:+ contentLine "!";
   nl +:+ "data: [DONE]" +:+ nl].

Definition onlyReasoning : list string :=
  [reasoningLine "Let me" +:+ nl +:+ reasoningLine " think" +:+ nl].

Definition messageDocument (content reasoning : option string)
    (usage : option Llm.Usage) : Llm.Document :=
  {| Llm.choices :=
       Some [{| Llm.delta := None;
                Llm.c_message :=
                  Some {| Llm.f_content := content;
                          Llm.f_reasoning_content := None;
                          Llm.f_reasoning := reasoning |} |}];
     Llm.usage := usage |}.

Definition bodyOf (data : Llm.Document) : Llm.FetchResult :=
  Llm.FetchResolves
    {| Llm.ok := true; Llm.status := 200%N; Llm.statusText := "OK";
       Llm.json := inr data; Llm.body := None |}.

(** A non-streaming response whose usage counter reports [tokens]. *)
Definition jsonOf (content : string) (tokens : Z) : Llm.FetchResult :=
  bodyOf (messageDocument (Some content) None
            (Some {| Llm.completion_tokens := Some tokens |})).

Definition someStats : Llm.Stats :=
  {| Llm.tokenCount := 3; Llm.duration := Qmake 1 2; Llm.tps := Qmake 6 1 |}.

Definition userTurn (t : string) : App.Message :=
  {| App.role := App.user; App.content := t; App.images := None;
     App.stats := None; App.siblings := None; App.siblingIndex := None |}.

Definition assistantTurn (t : string) : App.Message :=
  {| App.role := App.assistant; App.content := t; App.images := None;
     App.stats := None; App.siblings := None; App.siblingIndex := None |}.

(** An assistant turn that was regenerated once and shows its second
    version. *)
Definition branchedTurn : App.Message :=
  {| App.role := App.assistant; App.content := "second"; App.images := None;
     App.stats := None;
     App.siblings :=
       Some [Some {| App.s_role := Some App.assistant; App.s_content := "first";
                     App.s_stats := None |};
             Some {| App.s_role := Some App.assistant; App.s_content := "second";
                     App.s_stats := None |}];
     App.siblingIndex := Some 1%nat |}.

Definition session (i : string) (ms : list App.Message) : App.ChatSession :=
  {| App.id := i; App.title := "chat"; App.date := 0; App.s_messages := ms;
     App.s_systemPrompt := ""; App.s_temperature := Qmake 7 10;
     App.s_reasoningEffort := None; App.isFavorite := None |}.

(** The chat [c1] with the given turns; [loading] tells whether a
    generation is in flight. *)
Definition chat (ms : list App.Message) (loading : bool) : App.State :=
  {| App.messages := ms; App.currentChatId := Some "c1";
     App.isLoading := loading;
     App.abortControllerRef := if loading then Some 0%nat else None;
     App.controllersCreated := if loading then 1%nat else 0%nat;
     App.sessions := [session "c1" ms];
     App.systemPrompt := ""; App.temperature := Qmake 7 10;
     App.reasoningEffort := None |}.

End Demo.


(** ** Runs as functions of the events *)

Module Trace.

(** The text of a body: its chunks, one after the other. *)
Definition bodyText (cs : list string) : string :=
  fold_right String.append "" cs.

(** What the [try] block does with the two deltas of an event, once they
    are read. *)
Definition applyEvent (Date_now : nat -> Z) (startTime : Z) (st : Llm.Loop)
    (ev : string * string) : Llm.Loop :=
  let st2 := Llm.mergeContent ev.1 (Llm.mergeReasoning ev.2 st) in
  if Js.truthy ev.1 || Js.truthy ev.2
  then Llm.countAndNotify Date_now startTime st2 else st2.

(** The event carries text: [deltaContent || deltaReasoning]. *)
Definition carriesText (ev : string * string) : bool :=
  Js.truthy ev.1 || Js.truthy ev.2.

(** The answer deltas of the events, in arrival order. *)
Definition answerText (evs : list (string * string)) : string :=
  fold_right (fun ev acc => ev.1 +:+ acc) "" evs.

Definition statsOf (n : Llm.Notification) : option Llm.Stats :=
  match n with
  | Llm.onUpdate _ s | Llm.onFinish _ s => Some s
  | Llm.onError _ => None
  end.

(** The statistics of the [onFinish] a run ended with. *)
Definition finishedStats (st : Llm.Loop) : option Llm.Stats :=
  match last (Llm.delivered st) with
  | Some (Llm.onFinish _ s) => Some s
  | _ => None
  end.

(** The milliseconds between the start of the request and the clock reading
    a statistics record was made from: [duration * 1000]. *)
Definition elapsedMs (s : Llm.Stats) : Z := Qnum (Llm.duration s).

(** Two partial results in a row are more than 33 ms apart. *)
Definition paced (ns : list Llm.Notification) : Prop :=
  forall i c1 s1 c2 s2,
    ns !! i = Some (Llm.onUpdate c1 s1) ->
    ns !! S i = Some (Llm.onUpdate c2 s2) ->
    33 < elapsedMs s2 - elapsedMs s1.

(** The token count of the notifications never goes back, and it goes up
    from every notification to a later partial result. *)
Definition counting (ns : list Llm.Notification) : Prop :=
  forall i j n1 n2 s1 s2, (i < j)%nat ->
    ns !! i = Some n1 -> ns !! j = Some n2 ->
    statsOf n1 = Some s1 -> statsOf n2 = Some s2 ->
    Llm.tokenCount s1 <= Llm.tokenCount s2 /\
    (Llm.isTerminal n2 = false -> Llm.tokenCount s1 < Llm.tokenCount s2).

(** The invariants of the loop behind [paced] and [counting]. *)
Definition pacedLoop (startTime : Z) (st : Llm.Loop) : Prop :=
  paced (Llm.delivered st) /\
  match last (Llm.delivered st) with
  | Some (Llm.onUpdate _ s) => Llm.lastUiUpdate st = startTime + elapsedMs s
  | _ => True
  end.

Definition countingLoop (st : Llm.Loop) : Prop :=
  counting (Llm.delivered st) /\
  forall n s, n ∈ Llm.delivered st -> statsOf n = Some s ->
    Llm.tokenCount s <= Llm.l_tokenCount st.

(** A non-streaming response with the parsed body [data]. *)
Definition jsonResponse (data : Llm.Document) : Llm.FetchResult :=
  Llm.FetchResolves
    {| Llm.ok := true; Llm.status := 200%N; Llm.statusText := "OK";
       Llm.json := inr data; Llm.body := None |}.

(** Bodies used in the examples: the sentinel and a comment between two
    events, and an event that no newline ends. *)
Definition withSentinel : list string :=
  [Demo.contentLine "Hello" +:+ Demo.nl +:+ "data: [DONE]" +:+ Demo.nl;
   Demo.contentLine " world" +:+ Demo.nl].

Definition withoutSentinel : list string :=
  [Demo.contentLine "Hello" +:+ Demo.nl +:+ Demo.contentLine " world" +:+ Demo.nl].

Definition onlyReasoning1 : list string :=
  [Demo.reasoningLine "Let me think" +:+ Demo.nl].

Definition recut : list string :=
  [Demo.reasoningLine "Let me think"; Demo.nl; Demo.contentLine "42" +:+ Demo.nl].

End Trace.


(** ** [lib/llm.ts]: the request *)

Module Request.

(** [apiUrl.replace(/\/$/, '')]: a slash that ends the text is removed. *)
Fixpoint dropFinalSlash (s : string) : string :=
  match s with
  | EmptyString => EmptyString
  | String c s' =>
      match s' with
      | EmptyString => if Ascii.eqb c "/" then EmptyString else s
      | String _ _ => String c (dropFinalSlash s')
      end
  end.

Definition endpoint (apiUrl : string) : string :=
  dropFinalSlash apiUrl +:+ "/chat/completions".

(** [{ type: 'text', text }] and [{ type: 'image_url', image_url: { url } }] *)
Inductive Part :=
| text (t : string)
| image_url (url : string).

(** The [content] of a message of the request: a string or a list of
    parts. *)
Inductive Content :=
| plain (s : string)
| parts (ps : list Part).

Record Message := { role : App.Role; content : Content }.

(** The function given to [map]. *)
Definition encode (msg : App.Message) : Message :=
  match App.role msg, App.images msg with
  | App.user, Some (img :: imgs) =>
      {| role := App.user;
         content :=
           parts (text (App.content msg) :: map image_url (img :: imgs)) |}
  | _, _ => {| role := App.role msg; content := plain (App.content msg) |}
  end.

(** [{ role: 'system', content: systemPrompt } as Message] *)
Definition systemMessage (systemPrompt : string) : App.Message :=
  {| App.role := App.system; App.content := systemPrompt;
     App.images := None; App.stats := None; App.siblings := None;
     App.siblingIndex := None |}.

Record Body := {
  model : string;
  messages : list Message;
  temperature : option Q;
  reasoning_effort : option App.ReasoningEffort;
  stream : bool
}.

Definition requestBody (modelName : string) (msgs : list App.Message)
    (systemPrompt : option string) (temp : option Q)
    (reasoningEffort : option App.ReasoningEffort) (streaming : bool) : Body :=
  {| model := modelName;
     messages :=
       map encode
         ((if Js.truthy (Js.or systemPrompt "")
           then [systemMessage (Js.or systemPrompt "")] else []) ++ msgs);
     temperature := temp;
     reasoning_effort := reasoningEffort;
     stream := streaming |}.

(** The text and the image addresses a message of the request carries. *)
Definition textOf (m : Message) : list string :=
  match content m with
  | plain s => [s]
  | parts ps => omap (fun p => match p with text t => Some t | _ => None end) ps
  end.

Definition urlsOf (m : Message) : list string :=
  match content m with
  | plain _ => []
  | parts ps =>
      omap (fun p => match p with image_url u => Some u | _ => None end) ps
  end.

(** The images of a turn that are sent: those of a user turn. *)
Definition sentImages (msg : App.Message) : list string :=
  match App.role msg with
  | App.user => default [] (App.images msg)
  | _ => []
  end.

End Request.

(** ** [App.tsx]: the other handlers, and what [MainChat.tsx] offers *)

Module Chats.

(** The defaults [useAppSettings] gives to new chats. *)
Record Defaults := {
  defaultSystemPrompt : string;
  defaultTemperature : Q;
  defaultReasoningEffort : option App.ReasoningEffort
}.

(** What the handlers of this module ask of the database besides
    [App.Effect]. *)
Inductive Effect :=
| app (e : App.Effect)
| deleteSession (id : string)
| toggleFavorite (id : string).

(** [setCurrentChatId; setMessages; setSystemPrompt; setTemperature;
    setReasoningEffort] *)
Definition set_view (chat : option string) (ms : list App.Message)
    (prompt : string) (temp : Q) (effort : option App.ReasoningEffort)
    (st : App.State) : App.State :=
  {| App.messages := ms; App.currentChatId := chat;
     App.isLoading := App.isLoading st;
     App.abortControllerRef := App.abortControllerRef st;
     App.controllersCreated := App.controllersCreated st;
     App.sessions := App.sessions st;
     App.systemPrompt := prompt; App.temperature := temp;
     App.reasoningEffort := effort |}.

(** The view of a new chat. *)
Definition resetView (d : Defaults) (st : App.State) : App.State :=
  set_view None [] (defaultSystemPrompt d) (defaultTemperature d)
    (defaultReasoningEffort d) st.

(** The first step of [handleNewChat] and [handleSelectChat]: the chat on
    screen is saved with its messages and settings. *)
Definition saveCurrent (st : App.State) : App.State * list App.Effect :=
  match App.truthyId (App.currentChatId st) with
  | Some chat =>
      match App.find_session chat (App.sessions st) with
      | Some sessionToSave =>
          App.updateSession
            (App.with_chat sessionToSave (App.messages st) st) st
      | None => (st, [])
      end
  | None => (st, [])
  end.

Definition handleNewChat (d : Defaults) (st : App.State)
  : App.State * list App.Effect :=
  if App.isLoading st then (st, [])
  else
    let '(st1, effs) := saveCurrent st in
    (resetView d st1, effs).

(** [handleSelectChat]; the session is looked up in the list the handler
    was created with, the one before the save.  A session of this model
    always has a temperature, so [target.temperature ?? defaultTemperature]
    is that temperature. *)
Definition handleSelectChat (d : Defaults) (id : string) (st : App.State)
  : App.State * list App.Effect :=
  if App.isLoading st then (st, [])
  else
    let '(st1, effs) := saveCurrent st in
    match App.find_session id (App.sessions st) with
    | Some target =>
        if bool_decide (Some (App.id target) = App.currentChatId st)
        then (st1, effs)
        else
          (set_view (Some id) (App.s_messages target)
             (Js.or (Some (App.s_systemPrompt target)) (defaultSystemPrompt d))
             (App.s_temperature target)
             (match App.s_reasoningEffort target with
              | Some e => Some e
              | None => defaultReasoningEffort d
              end) st1,
           effs)
    | None => (st1, effs)
    end.

(** [useChatHistory]: [removeSession]. *)
Definition removeSession (id : string) (st : App.State)
  : App.State * list Effect :=
  (App.set_sessions
     (List.filter (fun s => negb (String.eqb (App.id s) id)) (App.sessions st))
     st,
   [deleteSession id]).

Definition handleDeleteChat (d : Defaults) (id : string) (st : App.State)
  : App.State * list Effect :=
  let '(st1, effs) := removeSession id st in
  if bool_decide (App.currentChatId st = Some id)
  then (resetView d st1, effs)
  else (st1, effs).

(** [messages.filter((_, i) => i !== index)] *)
Fixpoint dropIndex {A} (from index : nat) (l : list A) : list A :=
  match l with
  | [] => []
  | x :: l' =>
      if Nat.eqb from index then dropIndex (S from) index l'
      else x :: dropIndex (S from) index l'
  end.

Definition handleDeleteMessage (index : nat) (st : App.State)
  : App.State * list App.Effect :=
  let updatedMessages := dropIndex 0 index (App.messages st) in
  let st1 := App.set_messages updatedMessages st in
  match App.truthyId (App.currentChatId st) with
  | Some chat =>
      match App.find_session chat (App.sessions st) with
      | Some session =>
          App.updateSession (App.with_messages session updatedMessages) st1
      | None => (st1, [])
      end
  | None => (st1, [])
  end.

(** [contextTokens] *)
Definition contextTokens (ms : list App.Message) (systemPrompt : string) : Z :=
  fold_left (fun acc m => acc + Llm.estimateTokens (App.content m)) ms 0 +
  Llm.estimateTokens systemPrompt.

(** [Array.prototype.sort] with a comparison function: the stable sort,
    here by insertion from the right. *)
Fixpoint insertSorted {A} (cmp : A -> A -> Z) (x : A) (l : list A) : list A :=
  match l with
  | [] => [x]
  | y :: l' =>
      if 0 <? cmp x y then y :: insertSorted cmp x l' else x :: y :: l'
  end.

Definition sort {A} (cmp : A -> A -> Z) (l : list A) : list A :=
  fold_right (insertSorted cmp) [] l.

(** [!!s.isFavorite] *)
Definition favorite (s : App.ChatSession) : bool :=
  default false (App.isFavorite s).

(** The comparison of [toggleSessionFavorite]: favourites first, then the
    newer session first. *)
Definition byFavoriteThenDate (a b : App.ChatSession) : Z :=
  if Bool.eqb (favorite a) (favorite b) then App.date b - App.date a
  else if favorite a then -1 else 1.

(** [{ ...s, isFavorite: !s.isFavorite }] *)
Definition flipFavorite (s : App.ChatSession) : App.ChatSession :=
  {| App.id := App.id s; App.title := App.title s; App.date := App.date s;
     App.s_messages := App.s_messages s;
     App.s_systemPrompt := App.s_systemPrompt s;
     App.s_temperature := App.s_temperature s;
     App.s_reasoningEffort := App.s_reasoningEffort s;
     App.isFavorite := Some (negb (favorite s)) |}.

(** [useChatHistory]: [toggleSessionFavorite]. *)
Definition toggleSessionFavorite (id : string) (st : App.State)
  : App.State * list Effect :=
  (App.set_sessions
     (sort byFavoriteThenDate
        (map (fun s => if String.eqb (App.id s) id then flipFavorite s else s)
           (App.sessions st)))
     st,
   [toggleFavorite id]).

(** [MainChat.tsx]: the turn at [index] is given the regenerate action. *)
Definition regenerateOffered (ms : list App.Message) (loading : bool)
    (index : nat) : bool :=
  match ms !! index with
  | Some msg =>
      match App.role msg with
      | App.assistant => Nat.eqb index (length ms - 1) && negb loading
      | _ => false
      end
  | None => false
  end.

(** The order [toggleSessionFavorite] sorts by. *)
Definition inOrder (a b : App.ChatSession) : Prop := byFavoriteThenDate a b <= 0.

Definition someDefaults : Defaults :=
  {| defaultSystemPrompt := "Be brief."; defaultTemperature := Qmake 7 10;
     defaultReasoningEffort := Some App.low |}.

Definition datedSession (i : string) (day : Z) (fav : option bool)
  : App.ChatSession :=
  {| App.id := i; App.title := "chat"; App.date := day; App.s_messages := [];
     App.s_systemPrompt := ""; App.s_temperature := Qmake 7 10;
     App.s_reasoningEffort := None; App.isFavorite := fav |}.

End Chats.

(** ** [SettingsModal.tsx]: the saved servers *)

Module Settings.

(** [handleAddServer] *)
Definition handleAddServer (apiUrl : string) (servers : list string)
  : list string :=
  if Js.truthy apiUrl && negb (bool_decide (apiUrl ∈ servers))
  then servers ++ [apiUrl] else servers.

(** [handleRemoveServer] *)
Definition handleRemoveServer (server : string) (servers : list string)
  : list string :=
  List.filter (fun s => negb (String.eqb s server)) servers.

End Settings.


(** * Facts *)

(** ** Strings *)

Section StringFacts.

Lemma append_nil_r (s : string) : s +:+ "" = s.
Proof.
  induction s as [|c s IH]; [reflexivity|].
  change (String c (s +:+ "") = String c s). by rewrite IH.
Qed.

Lemma append_assoc (s t u : string) : (s +:+ t) +:+ u = s +:+ t +:+ u.
Proof.
  induction s as [|c s IH]; [reflexivity|].
  change (String c ((s +:+ t) +:+ u) = String c (s +:+ t +:+ u)).
  by rewrite IH.
Qed.

Lemma extends_refl (s : string) : Js.extends s s.
Proof. exists "". by rewrite append_nil_r. Qed.

Lemma extends_append (s t : string) : Js.extends s (s +:+ t).
Proof. by exists t. Qed.

Lemma extends_trans (a b c : string) :
  Js.extends a b -> Js.extends b c -> Js.extends a c.
Proof.
  intros [x ->] [y ->]. exists (x +:+ y). apply append_assoc.
Qed.

Lemma truthy_empty (s : string) : Js.truthy s = false -> s = "".
Proof. by destruct s. Qed.

Lemma truthy_nonempty (s : string) : Js.truthy s = true <-> s <> "".
Proof. destruct s; split; done. Qed.

Lemma prefix_nil (s : string) : String.prefix "" s = true.
Proof. by destruct s. Qed.

Lemma prefix_cons (a b : ascii) (p s : string) :
  String.prefix (String a p) (String b s) =
  if Ascii.eqb a b then String.prefix p s else false.
Proof.
  simpl. destruct (ascii_dec a b) as [->|Hne].
  - by rewrite Ascii.eqb_refl.
  - by apply Ascii.eqb_neq in Hne as ->.
Qed.

(** A pattern without [c] that matches at the start of [x +:+ c...] matches
    inside [x]. *)
Lemma prefix_before (c : ascii) (p x z : string) :
  Js.lacks c p = true ->
  String.prefix p (x +:+ String c z) = String.prefix p x.
Proof.
  revert x. induction p as [|a p IH]; intros x Hp.
  - by rewrite !prefix_nil.
  - simpl in Hp. apply andb_prop in Hp as [Ha Hp].
    destruct x as [|b x].
    + change ("" +:+ String c z) with (String c z).
      rewrite prefix_cons. apply negb_true_iff in Ha. by rewrite Ha.
    + change (String b x +:+ String c z) with (String b (x +:+ String c z)).
      rewrite !prefix_cons. destruct (Ascii.eqb a b); [by apply IH|done].
Qed.

Lemma prefix_append (p u v : string) :
  String.prefix p u = true -> String.prefix p (u +:+ v) = true.
Proof.
  revert u. induction p as [|a p IH]; intros u H.
  - apply prefix_nil.
  - destruct u as [|b u]; [done|].
    change (String b u +:+ v) with (String b (u +:+ v)).
    rewrite prefix_cons in *. destruct (Ascii.eqb a b); [by apply IH|done].
Qed.

(** A pattern that starts with [c] does not occur at the positions of a
    text without [c]. *)
Lemma occurrences_skip (c : ascii) (p u v : string) :
  Js.lacks c u = true ->
  Js.occurrences (String c p) (u +:+ v) = Js.occurrences (String c p) v.
Proof.
  induction u as [|b u IH]; intros Hu; [done|].
  simpl in Hu. apply andb_prop in Hu as [Hb Hu].
  change (String b u +:+ v) with (String b (u +:+ v)).
  cbn [Js.occurrences]. rewrite prefix_cons, IH by done.
  apply negb_true_iff in Hb. rewrite Ascii.eqb_sym in Hb. by rewrite Hb.
Qed.

(** The occurrences of a tag-like pattern in [x +:+ m +:+ y], where [m] is
    tag-like too: those in [x], those in [y], and [m] itself if it is the
    pattern. *)
Lemma occurrences_around (c : ascii) (p m x y : string) :
  Js.lacks c p = true -> Js.lacks c m = true ->
  Js.occurrences (String c p) (x +:+ String c m +:+ y) =
  (Js.occurrences (String c p) x +
   (if String.prefix (String c p) (String c m +:+ y) then 1 else 0) +
   Js.occurrences (String c p) y)%nat.
Proof.
  intros Hp Hm. induction x as [|b x IH].
  - change ("" +:+ String c m +:+ y) with (String c (m +:+ y)).
    change (String c m +:+ y) with (String c (m +:+ y)).
    cbn [Js.occurrences]. by rewrite occurrences_skip.
  - change (String b x +:+ String c m +:+ y)
      with (String b (x +:+ String c (m +:+ y))).
    change (x +:+ String c m +:+ y) with (x +:+ String c (m +:+ y)) in IH.
    cbn [Js.occurrences]. rewrite IH, !prefix_cons, prefix_before by done.
    lia.
Qed.

Lemma occurrences_append (p u v : string) :
  (Js.occurrences p u + Js.occurrences p v <= Js.occurrences p (u +:+ v))%nat.
Proof.
  induction u as [|b u IH]; [done|].
  change (String b u +:+ v) with (String b (u +:+ v)).
  cbn [Js.occurrences].
  destruct (String.prefix p (String b u)) eqn:E.
  - apply (prefix_append _ _ v) in E.
    change (String b u +:+ v) with (String b (u +:+ v)) in E. rewrite E. lia.
  - destruct (String.prefix p (String b (u +:+ v))); lia.
Qed.

(** A text built as [a <think> r </think> x] from parts that hold neither
    tag has each tag once. *)
Lemma tags_once (a r x : string) :
  Js.occurrences "<think>" (a +:+ r +:+ x) = 0%nat ->
  Js.occurrences "</think>" (a +:+ r +:+ x) = 0%nat ->
  Js.occurrences "<think>" (a +:+ "<think>" +:+ r +:+ "</think>" +:+ x) = 1%nat /\
  Js.occurrences "</think>" (a +:+ "<think>" +:+ r +:+ "</think>" +:+ x) = 1%nat.
Proof.
  intros Ho Hc.
  pose proof (occurrences_append "<think>" a (r +:+ x)) as Ho1.
  pose proof (occurrences_append "<think>" r x) as Ho2.
  pose proof (occurrences_append "</think>" a (r +:+ x)) as Hc1.
  pose proof (occurrences_append "</think>" r x) as Hc2.
  split.
  - rewrite (occurrences_around "<" "think>" "think>" a) by done.
    rewrite (occurrences_around "<" "think>" "/think>" r) by done.
    assert (String.prefix "<think>" ("<think>" +:+ r +:+ "</think>" +:+ x) = true)
      as -> by (by destruct r).
    assert (String.prefix "<think>" ("</think>" +:+ x) = false) as -> by done.
    lia.
  - rewrite (occurrences_around "<" "/think>" "think>" a) by done.
    rewrite (occurrences_around "<" "/think>" "/think>" r) by done.
    assert (String.prefix "</think>" ("<think>" +:+ r +:+ "</think>" +:+ x) = false)
      as -> by done.
    assert (String.prefix "</think>" ("</think>" +:+ x) = true)
      as -> by (by destruct x).
    lia.
Qed.

End StringFacts.

(** Equations between concatenations, up to bracketing. *)
Ltac by_strings :=
  rewrite ?append_assoc, ?append_nil_r; repeat split; reflexivity.

(** ** The streaming loop *)

Section LoopFacts.

Variable JSON_parse : string -> option Llm.Document.
Variable Date_now : nat -> Z.
Variable startTime : Z.

Local Abbreviation processLine := (Llm.processLine JSON_parse Date_now startTime).
Local Abbreviation readAll := (Llm.readAll JSON_parse Date_now startTime).

(** What a line does to the loop, by what the line carries. *)
Lemma processLine_cases (st : Llm.Loop) (line : string) :
  match Wire.eventOfLine JSON_parse line with
  | Some (deltaContent, deltaReasoning) =>
      processLine st line =
      let st2 :=
        Llm.mergeContent deltaContent (Llm.mergeReasoning deltaReasoning st) in
      if Js.truthy deltaContent || Js.truthy deltaReasoning
      then Llm.countAndNotify Date_now startTime st2 else st2
  | None =>
      processLine st line = st \/
      exists payload, processLine st line = Llm.console_error st payload
  end.
Proof.
  unfold Wire.eventOfLine, Wire.payloadOf, Llm.processLine.
  destruct (negb _); [by left|].
  destruct (String.eqb _ _); [by left|]. simpl.
  destruct (JSON_parse _) as [data|]; [|right; eauto].
  destruct (Llm.deltas data) as [[c r]|]; [done|right; eauto].
Qed.

Lemma mergeReasoning_merged (r T : string) (st : Llm.Loop) :
  Wire.merged st T -> Wire.merged (Llm.mergeReasoning r st) (T +:+ r).
Proof.
  unfold Wire.merged, Llm.mergeReasoning.
  destruct (Js.truthy r) eqn:Hr.
  - destruct st as [? acc ? ? [] [] ? ? ?]; simpl.
    + intros (A & R & X & -> & <-). exists A, R, (X +:+ r).
      by_strings.
    + intros (A & R & -> & <-). exists A, (R +:+ r). by_strings.
    + done.
    + intros ->. exists T, r. by_strings.
  - apply truthy_empty in Hr as ->. by rewrite append_nil_r.
Qed.

Lemma mergeContent_merged (c T : string) (st : Llm.Loop) :
  Wire.merged st T -> Wire.merged (Llm.mergeContent c st) (T +:+ c).
Proof.
  unfold Wire.merged, Llm.mergeContent.
  destruct (Js.truthy c) eqn:Hc.
  - destruct st as [? acc ? ? [] [] ? ? ?]; simpl.
    + intros (A & R & X & -> & <-). exists A, R, (X +:+ c). by_strings.
    + intros (A & R & -> & <-). exists A, R, c. by_strings.
    + done.
    + by intros ->.
  - apply truthy_empty in Hc as ->. by rewrite append_nil_r.
Qed.

Lemma processLine_merged (st : Llm.Loop) (line T : string) :
  Wire.merged st T ->
  Wire.merged (processLine st line) (T +:+ Wire.lineText JSON_parse line).
Proof.
  intros H. pose proof (processLine_cases st line) as Hc.
  unfold Wire.lineText. destruct (Wire.eventOfLine _ _) as [[c r]|].
  - rewrite Hc. rewrite <- append_assoc.
    apply (mergeReasoning_merged r), (mergeContent_merged c) in H.
    by destruct (_ || _).
  - rewrite append_nil_r. by destruct Hc as [->|[p ->]].
Qed.

Lemma processLine_started (st : Llm.Loop) (line : string) :
  Llm.hasStartedReasoning (processLine st line) =
  Llm.hasStartedReasoning st || Wire.lineReasons JSON_parse line.
Proof.
  pose proof (processLine_cases st line) as Hc.
  unfold Wire.lineReasons. destruct (Wire.eventOfLine _ _) as [[c r]|].
  - rewrite Hc. unfold Llm.mergeContent, Llm.mergeReasoning.
    destruct (Js.truthy c), (Js.truthy r); simpl;
      by rewrite ?orb_true_r, ?orb_false_r.
  - rewrite orb_false_r. by destruct Hc as [->|[p ->]].
Qed.

Lemma processLine_buffer (st : Llm.Loop) (line : string) :
  Llm.buffer (processLine st line) = Llm.buffer st.
Proof.
  pose proof (processLine_cases st line) as Hc.
  destruct (Wire.eventOfLine _ _) as [[c r]|].
  - rewrite Hc. unfold Llm.mergeContent, Llm.mergeReasoning.
    by destruct (Js.truthy c), (Js.truthy r).
  - by destruct Hc as [->|[p ->]].
Qed.

Lemma processLines_buffer (ls : list string) (st : Llm.Loop) :
  Llm.buffer (fold_left processLine ls st) = Llm.buffer st.
Proof.
  revert st. induction ls as [|l ls IH]; intros st; [done|].
  simpl. by rewrite IH, processLine_buffer.
Qed.

(** The text and the reasoning flag of a list of lines. *)
Lemma deltaText_cons (l : string) (ls : list string) :
  Wire.deltaText (omap (Wire.eventOfLine JSON_parse) (l :: ls)) =
  Wire.lineText JSON_parse l +:+
  Wire.deltaText (omap (Wire.eventOfLine JSON_parse) ls).
Proof.
  unfold Wire.lineText. simpl.
  destruct (Wire.eventOfLine _ l) as [[c r]|]; [|done].
  simpl. by rewrite append_assoc.
Qed.

Lemma deltaText_app (ls ls' : list string) :
  Wire.deltaText (omap (Wire.eventOfLine JSON_parse) (ls ++ ls')) =
  Wire.deltaText (omap (Wire.eventOfLine JSON_parse) ls) +:+
  Wire.deltaText (omap (Wire.eventOfLine JSON_parse) ls').
Proof.
  induction ls as [|l ls IH]; [done|].
  change ((l :: ls) ++ ls') with (l :: (ls ++ ls')).
  by rewrite !deltaText_cons, IH, append_assoc.
Qed.

Lemma hasReasoning_app (ls ls' : list string) :
  Wire.hasReasoning (omap (Wire.eventOfLine JSON_parse) (ls ++ ls')) <->
  Wire.hasReasoning (omap (Wire.eventOfLine JSON_parse) ls) \/
  Wire.hasReasoning (omap (Wire.eventOfLine JSON_parse) ls').
Proof. unfold Wire.hasReasoning. by rewrite omap_app, Exists_app. Qed.

Lemma processLines_merged (ls : list string) (st : Llm.Loop) (T : string) :
  Wire.merged st T ->
  Wire.merged (fold_left processLine ls st)
    (T +:+ Wire.deltaText (omap (Wire.eventOfLine JSON_parse) ls)).
Proof.
  revert st T. induction ls as [|l ls IH]; intros st T H.
  - simpl. by rewrite append_nil_r.
  - rewrite deltaText_cons, <- append_assoc. simpl.
    by apply IH, processLine_merged.
Qed.

Lemma processLines_started (ls : list string) (st : Llm.Loop) :
  Llm.hasStartedReasoning st = true \/
  Wire.hasReasoning (omap (Wire.eventOfLine JSON_parse) ls) ->
  Llm.hasStartedReasoning (fold_left processLine ls st) = true.
Proof.
  revert st. induction ls as [|l ls IH]; intros st H.
  - destruct H as [H|H]; [done|]. by apply Exists_nil in H.
  - simpl. apply IH. rewrite processLine_started.
    destruct H as [->|H]; [by left|].
    unfold Wire.lineReasons. simpl in H.
    destruct (Wire.eventOfLine _ l) as [[c r]|]; [|by right].
    apply Exists_cons in H as [H|H]; [|by right].
    left. apply truthy_nonempty in H. simpl in H. rewrite H. apply orb_true_r.
Qed.

(** Reading chunks is processing the framed lines. *)
Lemma readAll_merged (cs : list string) (st : Llm.Loop) (T : string) :
  Wire.merged st T ->
  Wire.merged (readAll st cs)
    (T +:+ Wire.deltaText
             (omap (Wire.eventOfLine JSON_parse)
                (Wire.framedLines (Llm.buffer st) cs))).
Proof.
  revert st T. induction cs as [|c cs IH]; intros st T H.
  - simpl. by rewrite append_nil_r.
  - simpl. rewrite deltaText_app, <- append_assoc.
    unfold Llm.readAll in IH.
    set (lines := Js.split "010" (Llm.buffer st +:+ c)).
    set (st' := fold_left processLine (Js.popped lines)
                  (Llm.set_buffer (Js.pop_or_empty lines) st)).
    assert (Llm.buffer st' = Js.pop_or_empty lines) as <-
      by (unfold st'; by rewrite processLines_buffer).
    apply IH. unfold st'. apply processLines_merged.
    by destruct st.
Qed.

Lemma readAll_started (cs : list string) (st : Llm.Loop) :
  Llm.hasStartedReasoning st = true \/
  Wire.hasReasoning
    (omap (Wire.eventOfLine JSON_parse) (Wire.framedLines (Llm.buffer st) cs)) ->
  Llm.hasStartedReasoning (readAll st cs) = true.
Proof.
  revert st. induction cs as [|c cs IH]; intros st H.
  - destruct H as [H|H]; [done|]. by apply Exists_nil in H.
  - simpl in *. unfold Llm.readAll in IH.
    set (lines := Js.split "010" (Llm.buffer st +:+ c)) in *.
    set (st' := fold_left processLine (Js.popped lines)
                  (Llm.set_buffer (Js.pop_or_empty lines) st)).
    assert (Llm.buffer st' = Js.pop_or_empty lines) as Hb
      by (unfold st'; by rewrite processLines_buffer).
    apply (IH st'). rewrite Hb.
    rewrite hasReasoning_app in H. destruct H as [H|[H|H]]; [| |by right].
    + left. apply processLines_started. left. by destruct st.
    + left. apply processLines_started. by right.
Qed.

End LoopFacts.

(** ** Delivered contents only grow *)

Section Growth.

Variable JSON_parse : string -> option Llm.Document.
Variable Date_now : nat -> Z.
Variable startTime : Z.

Lemma growing_nil : Wire.growing [].
Proof. intros i j a b _ H. by rewrite lookup_nil in H. Qed.

Lemma growing_one (n : Llm.Notification) : Wire.growing [n].
Proof.
  intros i j a b Hij _ H. destruct j as [|j]; [lia|].
  by rewrite lookup_cons, lookup_nil in H.
Qed.

(** A further notification keeps the run growing when its content extends
    all the earlier ones. *)
Lemma growing_snoc (ns : list Llm.Notification) (n : Llm.Notification) :
  Wire.growing ns ->
  (forall m a b, m ∈ ns -> Llm.contentOf m = Some a ->
                 Llm.contentOf n = Some b -> Js.extends a b) ->
  Wire.growing (ns ++ [n]).
Proof.
  intros Hg Hn i j a b Hij Ha Hb.
  destruct (decide (j < length ns)%nat) as [Hj|Hj].
  - rewrite lookup_app_l in Ha, Hb by lia. exact (Hg i j a b Hij Ha Hb).
  - rewrite lookup_app_r in Hb by lia.
    destruct (j - length ns)%nat as [|k] eqn:E; simpl in Hb; [|done].
    rewrite lookup_app_l in Ha by lia.
    destruct (ns !! i) as [m|] eqn:Hm; [|done]. simpl in Ha.
    eapply Hn; eauto. by eapply list_elem_of_lookup_2.
Qed.

Lemma orderly_extend (st st' : Llm.Loop) :
  Llm.delivered st' = Llm.delivered st ->
  Js.extends (Llm.accumulatedContent st) (Llm.accumulatedContent st') ->
  Wire.orderly st -> Wire.orderly st'.
Proof.
  intros Hd He [Hg Hb]. split; [by rewrite Hd|].
  intros n c Hn Hc. rewrite Hd in Hn.
  eapply extends_trans; [by eapply Hb|done].
Qed.

Lemma mergeReasoning_orderly (r : string) (st : Llm.Loop) :
  Wire.orderly st -> Wire.orderly (Llm.mergeReasoning r st).
Proof.
  unfold Llm.mergeReasoning. destruct (Js.truthy r); [|done].
  apply orderly_extend; [done|]. simpl.
  destruct (Llm.hasStartedReasoning st).
  - apply extends_append.
  - rewrite append_assoc. apply extends_append.
Qed.

Lemma mergeContent_orderly (c : string) (st : Llm.Loop) :
  Wire.orderly st -> Wire.orderly (Llm.mergeContent c st).
Proof.
  unfold Llm.mergeContent. destruct (Js.truthy c); [|done].
  apply orderly_extend; [done|]. simpl.
  destruct (_ && _).
  - rewrite append_assoc. apply extends_append.
  - apply extends_append.
Qed.

Lemma countAndNotify_orderly (st : Llm.Loop) :
  Wire.orderly st -> Wire.orderly (Llm.countAndNotify Date_now startTime st).
Proof.
  intros [Hg Hb]. unfold Llm.countAndNotify, Wire.orderly, Wire.behind. simpl.
  destruct (33 <? _); [|done]. split.
  - apply growing_snoc; [done|]. intros m a b Hm Ha [= <-]. by eapply Hb.
  - intros n c [Hn|Hn]%elem_of_app Hc; [by eapply Hb|].
    apply list_elem_of_singleton in Hn as ->. injection Hc as <-.
    apply extends_refl.
Qed.

Lemma processLine_orderly (st : Llm.Loop) (line : string) :
  Wire.orderly st ->
  Wire.orderly (Llm.processLine JSON_parse Date_now startTime st line).
Proof.
  intros H. pose proof (processLine_cases JSON_parse Date_now startTime st line) as Hc.
  destruct (Wire.eventOfLine _ _) as [[c r]|].
  - rewrite Hc.
    apply (mergeReasoning_orderly r), (mergeContent_orderly c) in H.
    destruct (_ || _); [by apply countAndNotify_orderly|done].
  - by destruct Hc as [->|[p ->]].
Qed.

Lemma readAll_orderly (cs : list string) (st : Llm.Loop) :
  Wire.orderly st -> Wire.orderly (Llm.readAll JSON_parse Date_now startTime st cs).
Proof.
  revert st. induction cs as [|c cs IH]; intros st H; [done|].
  simpl. apply IH. unfold Llm.processChunk.
  generalize (Js.popped (Js.split "010" (Llm.buffer st +:+ c))).
  assert (Wire.orderly (Llm.set_buffer
            (Js.pop_or_empty (Js.split "010" (Llm.buffer st +:+ c))) st)) as H'
    by (by destruct st).
  revert H'. generalize (Llm.set_buffer
    (Js.pop_or_empty (Js.split "010" (Llm.buffer st +:+ c))) st).
  intros st' H' ls. revert st' H'.
  induction ls as [|l ls IHl]; intros st' H'; [done|].
  simpl. by apply IHl, processLine_orderly.
Qed.

Lemma finish_growing (st : Llm.Loop) :
  Wire.orderly st -> Wire.growing (Llm.delivered (Llm.finish Date_now startTime st)).
Proof.
  intros [Hg Hb]. simpl. apply growing_snoc; [done|].
  intros m a b Hm Ha [= <-]. eapply extends_trans; [by eapply Hb|].
  unfold Llm.finalContent. destruct (_ && _);
    [apply extends_append|apply extends_refl].
Qed.

Lemma fail_growing (e : Llm.Error) (st : Llm.Loop) :
  Wire.orderly st -> Wire.growing (Llm.delivered (Llm.fail e st)).
Proof. intros [Hg Hb]. simpl. by apply growing_snoc. Qed.

Lemma initial_orderly : Wire.orderly Llm.initial.
Proof. split; [apply growing_nil|]. intros n c Hn. by apply elem_of_nil in Hn. Qed.

End Growth.

(** ** Terminal notifications and the console *)

Section Ending.

Variable JSON_parse : string -> option Llm.Document.
Variable Date_now : nat -> Z.
Variable startTime : Z.

Lemma processLine_quiet (st : Llm.Loop) (line : string) :
  Wire.quiet st ->
  Wire.quiet (Llm.processLine JSON_parse Date_now startTime st line).
Proof.
  intros H. pose proof (processLine_cases JSON_parse Date_now startTime st line) as Hc.
  destruct (Wire.eventOfLine _ _) as [[c r]|].
  - rewrite Hc. unfold Llm.mergeContent, Llm.mergeReasoning, Llm.countAndNotify, Wire.quiet.
    destruct (Js.truthy c), (Js.truthy r); simpl; try done;
      destruct (33 <? _); try done; apply Forall_app; by repeat constructor.
  - by destruct Hc as [->|[p ->]].
Qed.

Lemma processLines_quiet (ls : list string) (st : Llm.Loop) :
  Wire.quiet st ->
  Wire.quiet (fold_left (Llm.processLine JSON_parse Date_now startTime) ls st).
Proof.
  revert st. induction ls as [|l ls IH]; intros st H; [done|].
  simpl. by apply IH, processLine_quiet.
Qed.

Lemma readAll_quiet (cs : list string) (st : Llm.Loop) :
  Wire.quiet st -> Wire.quiet (Llm.readAll JSON_parse Date_now startTime st cs).
Proof.
  revert st. induction cs as [|c cs IH]; intros st H; [done|].
  simpl. apply IH. unfold Llm.processChunk. apply processLines_quiet.
  by destruct st.
Qed.

Lemma finished_finish (st : Llm.Loop) :
  Wire.finished (Llm.finish Date_now startTime st) = Some (Llm.finalContent st).
Proof. unfold Wire.finished. simpl. by rewrite last_snoc. Qed.

(** A line is read the same way whatever the buffer and the console
    hold. *)
Lemma processLine_visible (a b : Llm.Loop) (line : string) :
  Wire.visible a = Wire.visible b ->
  Wire.visible (Llm.processLine JSON_parse Date_now startTime a line) =
  Wire.visible (Llm.processLine JSON_parse Date_now startTime b line).
Proof.
  destruct a, b. unfold Wire.visible. simpl. intros [= -> -> -> -> -> -> ->].
  unfold Llm.processLine. destruct (negb _); [done|].
  destruct (String.eqb _ _); [done|].
  destruct (JSON_parse _) as [data|]; [|done].
  destruct (Llm.deltas data) as [[c r]|]; [|done].
  unfold Llm.mergeContent, Llm.mergeReasoning, Llm.countAndNotify.
  by destruct (Js.truthy c), (Js.truthy r).
Qed.

Lemma processLines_visible (ls : list string) (a b : Llm.Loop) :
  Wire.visible a = Wire.visible b ->
  Wire.visible (fold_left (Llm.processLine JSON_parse Date_now startTime) ls a) =
  Wire.visible (fold_left (Llm.processLine JSON_parse Date_now startTime) ls b).
Proof.
  revert a b. induction ls as [|l ls IH]; intros a b H; [done|].
  simpl. by apply IH, processLine_visible.
Qed.

Lemma readAll_cons (c : string) (cs : list string) (st : Llm.Loop) :
  Llm.readAll JSON_parse Date_now startTime st (c :: cs) =
  Llm.readAll JSON_parse Date_now startTime
    (Llm.processChunk JSON_parse Date_now startTime st c) cs.
Proof. reflexivity. Qed.

(** Reading the chunks is reading the lines they frame. *)
Lemma readAll_visible (cs : list string) (st : Llm.Loop) :
  Wire.visible (Llm.readAll JSON_parse Date_now startTime st cs) =
  Wire.visible
    (fold_left (Llm.processLine JSON_parse Date_now startTime)
       (Wire.framedLines (Llm.buffer st) cs) st).
Proof.
  revert st. induction cs as [|c cs IH]; intros st; [done|].
  rewrite readAll_cons, IH. cbn [Wire.framedLines]. rewrite fold_left_app.
  unfold Llm.processChunk. rewrite processLines_buffer. simpl.
  apply processLines_visible, processLines_visible. by destruct st.
Qed.

Lemma processLine_console (st : Llm.Loop) (line : string) :
  Llm.console (Llm.processLine JSON_parse Date_now startTime st line) =
  Llm.console st ++ Wire.diagnostics JSON_parse line.
Proof.
  unfold Llm.processLine, Wire.diagnostics, Wire.payloadOf.
  destruct (negb _); [by rewrite app_nil_r|].
  destruct (String.eqb _ _); [by rewrite app_nil_r|].
  destruct (JSON_parse _) as [data|]; [|done].
  destruct (Llm.deltas data) as [[c r]|]; [|done].
  unfold Llm.mergeContent, Llm.mergeReasoning, Llm.countAndNotify.
  destruct (Js.truthy c), (Js.truthy r); simpl; by rewrite app_nil_r.
Qed.

Lemma processLines_console (ls : list string) (st : Llm.Loop) :
  Llm.console (fold_left (Llm.processLine JSON_parse Date_now startTime) ls st) =
  Llm.console st ++ flat_map (Wire.diagnostics JSON_parse) ls.
Proof.
  revert st. induction ls as [|l ls IH]; intros st.
  - simpl. by rewrite app_nil_r.
  - simpl. by rewrite IH, processLine_console, <- app_assoc.
Qed.

Lemma readAll_console (cs : list string) (st : Llm.Loop) :
  Llm.console (Llm.readAll JSON_parse Date_now startTime st cs) =
  Llm.console st ++
  flat_map (Wire.diagnostics JSON_parse) (Wire.framedLines (Llm.buffer st) cs).
Proof.
  revert st. induction cs as [|c cs IH]; intros st.
  - simpl. by rewrite app_nil_r.
  - rewrite readAll_cons, IH. cbn [Wire.framedLines].
    rewrite flat_map_app, app_assoc. unfold Llm.processChunk.
    rewrite processLines_buffer, processLines_console. by destruct st.
Qed.

Lemma finish_visible (a b : Llm.Loop) :
  Wire.visible a = Wire.visible b ->
  Llm.delivered (Llm.finish Date_now startTime a) =
  Llm.delivered (Llm.finish Date_now startTime b).
Proof.
  destruct a, b. unfold Wire.visible. simpl. by intros [= -> -> -> -> -> -> ->].
Qed.

End Ending.

(** ** The scenarios of the specification *)

Section Scenarios.

(** A: answer deltas only. *)
Example scenario_answer_only :
  Wire.finished (Demo.run Demo.helloWorld) = Some "Hello world!" /\
  Llm.l_tokenCount (Demo.run Demo.helloWorld) = 3.
Proof. by split. Qed.

(** B: a reasoning delta, then an answer delta. *)
Example scenario_reasoning_then_answer :
  Wire.finished (Demo.run Demo.thinkThenAnswer) = Some "<think>Let me think</think>42".
Proof. reflexivity. Qed.

(** C: the stream ends while the reasoning is open. *)
Example scenario_reasoning_only :
  Wire.finished (Demo.run Demo.onlyReasoning) = Some "<think>Let me think</think>".
Proof. reflexivity. Qed.

(** D: the non-streaming branch merges as the streaming one does. *)
Example scenario_non_streaming :
  Wire.finished
    (Llm.streamCompletion Demo.JSON_parse Demo.Date_now false
       (Demo.bodyOf
          (Demo.messageDocument (Some "42") (Some "Let me think") None))) =
  Wire.finished (Demo.run Demo.thinkThenAnswer).
Proof. reflexivity. Qed.

(** E: an abort in the middle of the body ends the run with [onError]
    only. *)
Example scenario_cancelled_mid_read :
  filter (fun n => bool_decide (Llm.isTerminal n = true))
    (Llm.delivered
       (Llm.streamCompletion Demo.JSON_parse Demo.Date_now true
          (Llm.FetchResolves
             {| Llm.ok := true; Llm.status := 200%N; Llm.statusText := "OK";
                Llm.json := inl Demo.networkError;
                Llm.body :=
                  Some {| Llm.chunks := Demo.onlyReasoning;
                          Llm.ending := Llm.ReadRejects Demo.abortError |} |})))
  = [Llm.onError Demo.abortError].
Proof. reflexivity. Qed.

End Scenarios.

(** ** The engine's claims *)

(** C1, as the claim states it, fails: a reasoning delta that spells the
    opening tag leaves two opening tags in the final content. *)
Lemma tag_in_delta_twice :
  Wire.hasReasoning (Wire.events Demo.JSON_parse Demo.tagInDelta) /\
  Wire.finished
    (Llm.streamCompletion Demo.JSON_parse Demo.Date_now true
       (Wire.streamOf Demo.tagInDelta)) = Some "<think><think></think>" /\
  Js.occurrences "<think>" "<think><think></think>" = 2%nat.
Proof.
  split; [|split; reflexivity].
  unfold Wire.hasReasoning. vm_compute. by apply Exists_cons_hd.
Qed.

(** C1, amended.  When a stream that carries at least one non-empty
    reasoning delta ends, [onFinish] receives the delta text with the
    opening tag and the closing tag inserted once each, in that order: the
    content is [A <think> R </think> X] where [A R X] is the delta text in
    arrival order.  The closing tag is there even if no answer delta ever
    came.  When the delta text itself holds neither tag, the final content
    holds each tag exactly once. *)
Theorem markers_inserted_once
    (JSON_parse : string -> option Llm.Document) (Date_now : nat -> Z)
    (r : Llm.Response) (b : Llm.Body) :
  Llm.ok r = true -> Llm.body r = Some b -> Llm.ending b = Llm.ReadDone ->
  Wire.hasReasoning (Wire.events JSON_parse (Llm.chunks b)) ->
  exists final A R X,
    Wire.finished
      (Llm.streamCompletion JSON_parse Date_now true (Llm.FetchResolves r))
      = Some final /\
    final = A +:+ "<think>" +:+ R +:+ "</think>" +:+ X /\
    A +:+ R +:+ X = Wire.deltaText (Wire.events JSON_parse (Llm.chunks b)) /\
    (Js.occurrences "<think>"
       (Wire.deltaText (Wire.events JSON_parse (Llm.chunks b))) = 0%nat ->
     Js.occurrences "</think>"
       (Wire.deltaText (Wire.events JSON_parse (Llm.chunks b))) = 0%nat ->
     Js.occurrences "<think>" final = 1%nat /\
     Js.occurrences "</think>" final = 1%nat).
Proof.
  intros Hok Hbody Hend Hr.
  unfold Llm.streamCompletion. rewrite Hok, Hbody, Hend. simpl.
  set (st := Llm.readAll JSON_parse Date_now (Date_now 0%nat) Llm.initial
               (Llm.chunks b)).
  assert (Wire.merged st (Wire.deltaText (Wire.events JSON_parse (Llm.chunks b))))
    as Hm by apply (readAll_merged _ _ _ _ Llm.initial ""), eq_refl.
  assert (Llm.hasStartedReasoning st = true) as Hs
    by (apply readAll_started; by right).
  rewrite finished_finish. unfold Llm.finalContent.
  unfold Wire.merged in Hm. rewrite Hs in *.
  destruct (Llm.hasEndedReasoning st); simpl.
  - destruct Hm as (A & R & X & Hacc & HT).
    exists (Llm.accumulatedContent st), A, R, X.
    repeat split; try done. all: rewrite Hacc; intros; apply tags_once; by rewrite HT.
  - destruct Hm as (A & R & Hacc & HT).
    exists (Llm.accumulatedContent st +:+ "</think>"), A, R, "".
    assert (A +:+ R +:+ "" = Wire.deltaText (Wire.events JSON_parse (Llm.chunks b)))
      as HT' by (by rewrite append_nil_r).
    assert (Llm.accumulatedContent st +:+ "</think>" =
            A +:+ "<think>" +:+ R +:+ "</think>" +:+ "") as Hacc'
      by (rewrite Hacc; by_strings).
    repeat split; try done. all: rewrite Hacc'; intros; apply tags_once; by rewrite HT'.
Qed.

Lemma markers_inserted_once_witness :
  Wire.hasReasoning (Wire.events Demo.JSON_parse Demo.thinkThenAnswer) /\
  exists final,
    Wire.finished
      (Llm.streamCompletion Demo.JSON_parse Demo.Date_now true
         (Wire.streamOf Demo.thinkThenAnswer)) = Some final /\
    Js.occurrences "<think>" final = 1%nat /\
    Js.occurrences "</think>" final = 1%nat.
Proof.
  assert (Wire.hasReasoning (Wire.events Demo.JSON_parse Demo.thinkThenAnswer))
    as H by (unfold Wire.hasReasoning; vm_compute; by apply Exists_cons_hd).
  split; [exact H|].
  destruct (markers_inserted_once Demo.JSON_parse Demo.Date_now
              (Wire.responseOf Demo.thinkThenAnswer) _
              eq_refl eq_refl eq_refl H)
    as (final & A & R & X & Hf & _ & _ & Hn).
  exists final. split; [exact Hf|]. apply Hn; reflexivity.
Defined.

(** C2.  In every run of [streamCompletion], streaming or not and however
    it ends, the contents handed to [onUpdate] and [onFinish] only grow:
    each one is extended by every later one. *)
Theorem delivered_contents_grow
    (JSON_parse : string -> option Llm.Document) (Date_now : nat -> Z)
    (stream : bool) (fetched : Llm.FetchResult) :
  Wire.growing
    (Llm.delivered (Llm.streamCompletion JSON_parse Date_now stream fetched)).
Proof.
  unfold Llm.streamCompletion.
  destruct fetched as [e|r]; [apply fail_growing, initial_orderly|].
  destruct (Llm.ok r); cbn [negb]; [|apply fail_growing, initial_orderly].
  destruct stream; cbn [negb].
  - destruct (Llm.body r) as [b|]; [|apply fail_growing, initial_orderly].
    destruct (Llm.ending b).
    + apply finish_growing, readAll_orderly, initial_orderly.
    + apply fail_growing, readAll_orderly, initial_orderly.
  - destruct (Llm.json r) as [e|data]; [apply fail_growing, initial_orderly|].
    unfold Llm.nonStreaming.
    destruct (_ ≫= _); [apply growing_one|apply fail_growing, initial_orderly].
Qed.



(** The token count of the non-streaming branch, in general: the usage
    counter when it is there and not zero, the estimate otherwise. *)
Lemma nonStreaming_tokenCount (Date_now : nat -> Z) (startTime : Z) (data : Llm.Document) (content : string) (stats : Llm.Stats) :
  Llm.delivered (Llm.nonStreaming Date_now startTime data)
    = [Llm.onFinish content stats] ->
  Llm.tokenCount stats =
    match Llm.usage data ≫= Llm.completion_tokens with
    | Some n => if n =? 0 then Llm.estimateTokens content else n
    | None => Llm.estimateTokens content
    end.
Proof.
  unfold Llm.nonStreaming. destruct (_ ≫= Llm.c_message); [|done].
  simpl. by intros [= <- <-].
Qed.

(** C9, at the input where the code departs from it: the response reports
    [completion_tokens: 0] for the content [Hello], and the terminal
    statistics count 2 tokens, the estimate, not the reported 0. *)
Theorem zero_usage_counter_replaced :
  Llm.delivered
    (Llm.streamCompletion Demo.JSON_parse Demo.Date_now false
       (Demo.jsonOf "Hello" 0)) =
  [Llm.onFinish "Hello"
     {| Llm.tokenCount := 2;
        Llm.duration := Llm.seconds 1000 1050;
        Llm.tps := Llm.perSecond 2 (Llm.seconds 1000 1050) |}].
Proof. reflexivity. Qed.

(** ** The version tree and the generation controller *)

Section TreeFacts.

Lemma array_get_set {A} (l : list (option A)) (i : nat) (v : A) :
  Js.array_get (Js.array_set l i v) i = Some v.
Proof.
  unfold Js.array_get, Js.array_set. destruct (decide _) as [Hi|Hi].
  - by rewrite list_lookup_insert_eq.
  - rewrite lookup_app_r by lia.
    rewrite lookup_app_r by (rewrite length_replicate; lia).
    rewrite length_replicate, Nat.sub_diag. done.
Qed.

Lemma writeActive_mirrored (msg : App.Message) (content : string)
    (stats : Llm.Stats) :
  Tree.mirrored (App.writeActive msg content stats).
Proof.
  intros sibs i. unfold App.writeActive. simpl.
  destruct (App.siblings msg) as [old|]; [|done].
  destruct (App.siblingIndex msg) as [k|]; [|done].
  intros [= <-] [= <-]. eexists. by rewrite array_get_set.
Qed.

Lemma array_get_set_ne {A} (l : list (option A)) (i j : nat) (v : A) :
  j <> i -> Js.array_get (Js.array_set l i v) j = Js.array_get l j.
Proof.
  intros Hj. unfold Js.array_get, Js.array_set.
  destruct (decide _) as [Hi|Hi].
  - by rewrite list_lookup_insert_ne.
  - destruct (decide (j < length l)%nat) as [Hl|Hl].
    + by rewrite lookup_app_l.
    + rewrite (lookup_ge_None_2 l j) by lia.
      rewrite lookup_app_r by lia.
      destruct (decide (j - length l < i - length l)%nat) as [Hr|Hr].
      * rewrite lookup_app_l by (rewrite length_replicate; lia).
        by rewrite lookup_replicate_2.
      * rewrite lookup_app_r by (rewrite length_replicate; lia).
        rewrite length_replicate.
        destruct (j - length l - (i - length l))%nat as [|k] eqn:Hk; [lia|done].
Qed.

(** What [writeActive] does to the versions of the turn it is given. *)
Lemma writeActive_siblings (msg : App.Message) (content : string)
    (stats : Llm.Stats) (sibs : list (option App.Sibling)) (i : nat) :
  App.siblings msg = Some sibs -> App.siblingIndex msg = Some i ->
  exists sibs' sib,
    App.siblings (App.writeActive msg content stats) = Some sibs' /\
    Js.array_get sibs' i = Some sib /\
    App.s_content sib = content /\
    App.s_stats sib = Some (App.messageStats stats) /\
    App.s_role sib = Js.array_get sibs i ≫= App.s_role /\
    forall j, j <> i -> Js.array_get sibs' j = Js.array_get sibs j.
Proof.
  intros Hs Hi. unfold App.writeActive. simpl. rewrite Hs, Hi.
  eexists _, _. split; [reflexivity|]. split; [apply array_get_set|].
  repeat split. intros j Hj. by apply array_get_set_ne.
Qed.

Lemma writeActive_no_siblings (msg : App.Message) (content : string)
    (stats : Llm.Stats) :
  App.siblings msg = None \/ App.siblingIndex msg = None ->
  App.siblings (App.writeActive msg content stats) = App.siblings msg.
Proof.
  unfold App.writeActive. simpl.
  intros [H|H]; rewrite H; [done|]. by destruct (App.siblings msg).
Qed.

Lemma lookup_last {A} (pre : list A) (x : A) :
  (pre ++ [x]) !! (length (pre ++ [x]) - 1)%nat = Some x.
Proof.
  rewrite length_app. simpl.
  replace (length pre + 1 - 1)%nat with (length pre + 0)%nat by lia.
  by rewrite lookup_app_r, Nat.add_0_r, Nat.sub_diag by lia.
Qed.

End TreeFacts.

(** C3, as the claim states it, fails: the engine has no notification of
    its own for a cancellation.  The aborted request ends in the [onError]
    callback, as a request that failed on the network does. *)
Lemma cancellation_uses_onError :
  Llm.isAbortError Demo.abortError = true /\
  Llm.delivered
    (Llm.streamCompletion Demo.JSON_parse Demo.Date_now true
       (Llm.FetchRejects Demo.abortError)) = [Llm.onError Demo.abortError] /\
  Llm.isAbortError Demo.networkError = false /\
  Llm.delivered
    (Llm.streamCompletion Demo.JSON_parse Demo.Date_now true
       (Llm.FetchRejects Demo.networkError)) = [Llm.onError Demo.networkError].
Proof. by repeat split. Qed.

(** C3, amended.  When the token aborts the request, while [fetch] is
    pending, while the JSON body is read or in a [read()] of the stream,
    the engine delivers exactly one terminal notification, and it is
    [onError] with the token's [AbortError], after the partial results it
    had already delivered.  The controller's [onError] recognises the
    error by its name and changes nothing: no message is added or replaced,
    so the cancellation is not shown as a failure. *)
Theorem cancellation_not_rendered
    (JSON_parse : string -> option Llm.Document) (Date_now : nat -> Z)
    (stream : bool) (fetched : Llm.FetchResult) (e : Llm.Error) :
  Wire.Cancelled e stream fetched ->
  Llm.isAbortError e = true ->
  (exists updates,
     Llm.delivered (Llm.streamCompletion JSON_parse Date_now stream fetched)
       = updates ++ [Llm.onError e] /\
     Forall (fun n => Llm.isTerminal n = false) updates) /\
  forall sessionId targetIndex st,
    App.notify sessionId targetIndex (Llm.onError e) st =
    (st, [App.console_log "Generation stopped by user"]).
Proof.
  intros Hc He. split.
  - unfold Llm.streamCompletion.
    destruct Hc as [stream|r Hok Hj|r b Hok Hb Hend].
    + by exists [].
    + rewrite Hok, Hj. by exists [].
    + rewrite Hok, Hb, Hend. simpl. eexists. split; [done|].
      apply readAll_quiet. constructor.
  - intros sessionId targetIndex st. simpl. unfold App.onError. by rewrite He.
Qed.

Lemma cancellation_not_rendered_witness :
  (exists updates,
     Llm.delivered
       (Llm.streamCompletion Demo.JSON_parse Demo.Date_now true
          (Llm.FetchRejects Demo.abortError))
       = updates ++ [Llm.onError Demo.abortError] /\
     Forall (fun n => Llm.isTerminal n = false) updates) /\
  forall sessionId targetIndex st,
    App.notify sessionId targetIndex (Llm.onError Demo.abortError) st =
    (st, [App.console_log "Generation stopped by user"]).
Proof.
  apply (cancellation_not_rendered Demo.JSON_parse Demo.Date_now true
           (Llm.FetchRejects Demo.abortError) Demo.abortError);
    [constructor | reflexivity].
Defined.

(** C4, as the claim states it, fails: the second version of a turn is
    being streamed, [partial answer] has arrived, and the error replaces
    the whole turn; nothing of the partial content is left. *)
Lemma streamed_content_replaced :
  let st0 := Demo.chat [Demo.userTurn "q"; Demo.assistantTurn "a"] false in
  let st1 := (App.handleRegenerate st0).1 in
  let st2 := App.onUpdate (Some 1%nat) "partial answer" Demo.someStats st1 in
  let st3 := (App.onError (Some 1%nat) Demo.networkError st2).1 in
  App.content <$> App.messages st2 !! 1%nat = Some "partial answer" /\
  App.messages st3 !! 1%nat = Some (Demo.assistantTurn "**Error**: Failed to fetch") /\
  String.prefix "partial answer" "**Error**: Failed to fetch" = false.
Proof. by repeat split. Qed.

(** C4, amended.  When a generation for an existing target turn ends with
    an error other than the [AbortError], the controller replaces the turn
    by an assistant turn whose content is [**Error**: ] followed by the
    error's message, whatever had streamed into it, and clears the in-flight
    state. *)
Theorem error_replaces_target
    (t : nat) (error : Llm.Error) (st : App.State) (old : App.Message) :
  Llm.isAbortError error = false ->
  App.messages st !! t = Some old ->
  let st' := (App.onError (Some t) error st).1 in
  App.messages st' = <[t := App.errorMsg error]> (App.messages st) /\
  App.messages st' !! t = Some (App.errorMsg error) /\
  App.content (App.errorMsg error) = "**Error**: " +:+ Llm.message error /\
  App.isLoading st' = false /\
  App.abortControllerRef st' = None.
Proof.
  intros He Hold. unfold App.onError. rewrite He. simpl.
  unfold App.onError_messages. simpl. rewrite Hold.
  repeat split. apply list_lookup_insert_eq. by eapply lookup_lt_Some.
Qed.

Lemma error_replaces_target_witness :
  let st := Demo.chat [Demo.userTurn "q"; Demo.assistantTurn "partial"] true in
  let st' := (App.onError (Some 1%nat) Demo.networkError st).1 in
  App.messages st' =
    <[1%nat := App.errorMsg Demo.networkError]> (App.messages st) /\
  App.messages st' !! 1%nat = Some (App.errorMsg Demo.networkError) /\
  App.content (App.errorMsg Demo.networkError) =
    "**Error**: " +:+ Llm.message Demo.networkError /\
  App.isLoading st' = false /\
  App.abortControllerRef st' = None.
Proof.
  exact (error_replaces_target 1 Demo.networkError
           (Demo.chat [Demo.userTurn "q"; Demo.assistantTurn "partial"] true)
           (Demo.assistantTurn "partial") eq_refl eq_refl).
Defined.

(** C5, as the claim states it, fails: with a generation in flight for the
    chat, sending a message is not rejected.  It appends two turns, replaces
    the abort controller and calls [streamCompletion] again. *)
Lemma second_generation_started :
  let st := Demo.chat [Demo.userTurn "q"; Demo.assistantTurn "par"] true in
  let out := App.handleSendMessage 1700 0 "again" None st in
  App.isLoading st = true /\
  App.abortControllerRef st = Some 0%nat /\
  App.abortControllerRef out.1 = Some 1%nat /\
  App.messages out.1 =
    App.messages st ++ [Demo.userTurn "again"; Demo.assistantTurn ""] /\
  last out.2 =
    Some (App.streamCompletion (App.messages st ++ [Demo.userTurn "again"])
            "c1" (Some 3%nat) 1%nat).
Proof. by repeat split. Qed.

(** C5, amended.  The single-flight restriction is the one [isLoading] flag
    of the application, not a flag per conversation, and the handler that
    checks it is [handleRegenerate]: while the flag is set, regenerating is
    a no-op, whichever chat is current. *)
Theorem regenerate_rejected_while_loading (st : App.State) :
  App.isLoading st = true ->
  App.handleRegenerate st = (st, []).
Proof. intros H. unfold App.handleRegenerate. by rewrite H. Qed.

Lemma regenerate_rejected_while_loading_witness :
  App.handleRegenerate
    (Demo.chat [Demo.userTurn "q"; Demo.assistantTurn "par"] true) =
  (Demo.chat [Demo.userTurn "q"; Demo.assistantTurn "par"] true, []).
Proof.
  exact (regenerate_rejected_while_loading
           (Demo.chat [Demo.userTurn "q"; Demo.assistantTurn "par"] true)
           eq_refl).
Defined.

(** C6.  After [onUpdate] or [onFinish] has written a content and its
    statistics to the turn it targets, the turn carries them and keeps its
    sibling index.  If the turn had a list of siblings and a sibling index,
    it still has both, the sibling at that index carries the same content and
    the same statistics (and the role that entry had), and every other entry
    of the list is as it was; otherwise the siblings are left as they were.
    Both callbacks leave the same turn, and in it the active sibling mirrors
    the turn's own content and statistics. *)
Theorem active_sibling_mirrors_turn
    (targetIndex : option nat) (content : string) (stats : Llm.Stats)
    (prev : list App.Message) (msg : App.Message) :
  prev !! App.actualIndex targetIndex prev = Some msg ->
  exists m,
    App.onUpdate_messages targetIndex content stats prev
      !! App.actualIndex targetIndex prev = Some m /\
    App.onFinish_messages targetIndex content stats prev
      !! App.actualIndex targetIndex prev = Some m /\
    App.content m = content /\
    App.stats m = Some (App.messageStats stats) /\
    App.siblingIndex m = App.siblingIndex msg /\
    (forall sibs i,
       App.siblings msg = Some sibs -> App.siblingIndex msg = Some i ->
       exists sibs' sib,
         App.siblings m = Some sibs' /\
         Js.array_get sibs' i = Some sib /\
         App.s_content sib = content /\
         App.s_stats sib = Some (App.messageStats stats) /\
         App.s_role sib = Js.array_get sibs i ≫= App.s_role /\
         forall j, j <> i -> Js.array_get sibs' j = Js.array_get sibs j) /\
    (App.siblings msg = None \/ App.siblingIndex msg = None ->
     App.siblings m = App.siblings msg) /\
    Tree.mirrored m.
Proof.
  intros H. unfold App.onUpdate_messages, App.onFinish_messages. rewrite H.
  exists (App.writeActive msg content stats).
  assert (App.actualIndex targetIndex prev < length prev)%nat as Hlt
    by by eapply lookup_lt_Some.
  split; [by apply list_lookup_insert_eq|].
  split; [by apply list_lookup_insert_eq|].
  do 3 (split; [reflexivity|]).
  split; [intros sibs i; apply writeActive_siblings|].
  split; [apply writeActive_no_siblings|apply writeActive_mirrored].
Qed.

Lemma active_sibling_mirrors_turn_witness :
  exists m sibs' sib,
    App.onUpdate_messages (Some 1%nat) "sec" Demo.someStats
      [Demo.userTurn "q"; Demo.branchedTurn] !! 1%nat = Some m /\
    App.onFinish_messages (Some 1%nat) "sec" Demo.someStats
      [Demo.userTurn "q"; Demo.branchedTurn] !! 1%nat = Some m /\
    App.content m = "sec" /\
    App.stats m = Some (App.messageStats Demo.someStats) /\
    App.siblingIndex m = Some 1%nat /\
    App.siblings m = Some sibs' /\
    Js.array_get sibs' 1 = Some sib /\
    App.s_content sib = "sec" /\
    App.s_stats sib = Some (App.messageStats Demo.someStats) /\
    App.s_role sib = Some App.assistant /\
    Js.array_get sibs' 0 =
      Some {| App.s_role := Some App.assistant; App.s_content := "first";
              App.s_stats := None |}.
Proof.
  destruct (active_sibling_mirrors_turn (Some 1%nat) "sec" Demo.someStats
              [Demo.userTurn "q"; Demo.branchedTurn] Demo.branchedTurn
              eq_refl)
    as (m & Hu & Hf & Hc & Hs & Hi & Hsibs & _).
  destruct (Hsibs _ 1%nat eq_refl eq_refl)
    as (sibs' & sib & Hs' & Hg & Hsc & Hss & Hr & Hother).
  exists m, sibs', sib.
  repeat split; try assumption.
  exact (Hother 0%nat (O_S 0)).
Defined.

(** C7.  Regenerating, when nothing is in flight, an assistant turn that
    is the last one and has no siblings yet: the turn gets a list of two
    siblings, the first with the content and statistics the turn had, the
    second empty and without statistics; its sibling index is 1, its own
    content is empty and its statistics are gone; the turns before it are
    untouched, and they, and no other turn, are the context of the request
    that is started when a chat is open. *)
Theorem regenerate_first_time
    (st : App.State) (pre : list App.Message) (lastMsg : App.Message) :
  App.isLoading st = false ->
  App.messages st = pre ++ [lastMsg] ->
  App.role lastMsg = App.assistant ->
  App.siblings lastMsg = None ->
  let out := App.handleRegenerate st in
  App.messages out.1 =
    pre ++
    [{| App.role := App.assistant; App.content := "";
        App.images := App.images lastMsg; App.stats := None;
        App.siblings :=
          Some [Some {| App.s_role := Some App.assistant;
                        App.s_content := App.content lastMsg;
                        App.s_stats := App.stats lastMsg |};
                Some {| App.s_role := Some App.assistant;
                        App.s_content := ""; App.s_stats := None |}];
        App.siblingIndex := Some 1%nat |}] /\
  out.2 =
    match App.truthyId (App.currentChatId st) with
    | Some chat =>
        [App.streamCompletion pre chat (Some (length pre))
           (App.controllersCreated st)]
    | None => []
    end.
Proof.
  intros Hl Hm Hr Hs. unfold App.handleRegenerate.
  rewrite Hl, Hm, lookup_last, Hr, Hs. simpl.
  assert ((length (pre ++ [lastMsg]) =? 0)%nat = false) as ->
    by (apply Nat.eqb_neq; rewrite length_app; simpl; lia).
  assert (length (pre ++ [lastMsg]) - 1 = length pre + 0)%nat as ->
    by (rewrite length_app; simpl; lia).
  rewrite insert_app_r, Nat.add_0_r, take_app_length. simpl.
  destruct (App.truthyId (App.currentChatId st)); by rewrite ?Hr.
Qed.

Lemma regenerate_first_time_witness :
  let out :=
    App.handleRegenerate
      (Demo.chat [Demo.userTurn "q"; Demo.assistantTurn "a"] false) in
  App.messages out.1 =
    [Demo.userTurn "q"] ++
    [{| App.role := App.assistant; App.content := "";
        App.images := None; App.stats := None;
        App.siblings :=
          Some [Some {| App.s_role := Some App.assistant;
                        App.s_content := "a"; App.s_stats := None |};
                Some {| App.s_role := Some App.assistant;
                        App.s_content := ""; App.s_stats := None |}];
        App.siblingIndex := Some 1%nat |}] /\
  out.2 = [App.streamCompletion [Demo.userTurn "q"] "c1" (Some 1%nat) 0%nat].
Proof.
  exact (regenerate_first_time
           (Demo.chat [Demo.userTurn "q"; Demo.assistantTurn "a"] false)
           [Demo.userTurn "q"] (Demo.assistantTurn "a")
           eq_refl eq_refl eq_refl eq_refl).
Defined.

(** C10.  Choosing a version of a turn that has no siblings, or a version
    index that is negative or past the end of its siblings, changes nothing:
    the state, with the messages and the sessions, is as before, and nothing
    is saved. *)
Theorem version_change_ignored
    (index : nat) (newVersionIndex : Z) (st : App.State) (msg : App.Message) :
  App.messages st !! index = Some msg ->
  (App.siblings msg = None \/
   exists sibs,
     App.siblings msg = Some sibs /\
     (newVersionIndex < 0 \/ Z.of_nat (length sibs) <= newVersionIndex)) ->
  App.handleVersionChange index newVersionIndex st = Some (st, []).
Proof.
  intros Hm H. unfold App.handleVersionChange. rewrite Hm.
  destruct H as [->|(sibs & -> & Hlen)]; [done|]. simpl.
  unfold Js.array_at, Js.array_get.
  destruct (newVersionIndex <? 0) eqn:E; [done|].
  apply Z.ltb_ge in E. by rewrite lookup_ge_None_2 by lia.
Qed.

Lemma version_change_ignored_witness :
  App.handleVersionChange 1 2
    (Demo.chat [Demo.userTurn "q"; Demo.branchedTurn] false) =
  Some (Demo.chat [Demo.userTurn "q"; Demo.branchedTurn] false, []).
Proof.
  apply (version_change_ignored 1 2
           (Demo.chat [Demo.userTurn "q"; Demo.branchedTurn] false)
           Demo.branchedTurn eq_refl).
  right. eexists. split; [reflexivity|]. right. simpl. lia.
Defined.


(** * Further properties of the engine *)

(** ** The run as a function of the events *)

Section EventRuns.

Variable JSON_parse : string -> option Llm.Document.
Variable Date_now : nat -> Z.
Variable startTime : Z.

Lemma processLine_event (st : Llm.Loop) (line : string) (ev : string * string) :
  Wire.eventOfLine JSON_parse line = Some ev ->
  Llm.processLine JSON_parse Date_now startTime st line =
  Trace.applyEvent Date_now startTime st ev.
Proof.
  intros H. pose proof (processLine_cases JSON_parse Date_now startTime st line) as Hc.
  rewrite H in Hc. by destruct ev as [c r].
Qed.

Lemma processLine_no_event (st : Llm.Loop) (line : string) :
  Wire.eventOfLine JSON_parse line = None ->
  Wire.visible (Llm.processLine JSON_parse Date_now startTime st line) =
  Wire.visible st.
Proof.
  intros H. pose proof (processLine_cases JSON_parse Date_now startTime st line) as Hc.
  rewrite H in Hc. by destruct Hc as [->|[p ->]].
Qed.

Lemma applyEvent_visible (a b : Llm.Loop) (ev : string * string) :
  Wire.visible a = Wire.visible b ->
  Wire.visible (Trace.applyEvent Date_now startTime a ev) =
  Wire.visible (Trace.applyEvent Date_now startTime b ev).
Proof.
  destruct a, b, ev as [c r]. unfold Wire.visible. simpl.
  intros [= -> -> -> -> -> -> ->].
  unfold Trace.applyEvent, Llm.mergeContent, Llm.mergeReasoning,
    Llm.countAndNotify. simpl.
  by destruct (Js.truthy c), (Js.truthy r).
Qed.

Lemma processLines_events (ls : list string) (a b : Llm.Loop) :
  Wire.visible a = Wire.visible b ->
  Wire.visible (fold_left (Llm.processLine JSON_parse Date_now startTime) ls a) =
  Wire.visible
    (fold_left (Trace.applyEvent Date_now startTime)
       (omap (Wire.eventOfLine JSON_parse) ls) b).
Proof.
  revert a b. induction ls as [|l ls IH]; intros a b H; [done|].
  simpl. destruct (Wire.eventOfLine JSON_parse l) as [ev|] eqn:E.
  - simpl. apply IH. rewrite (processLine_event _ _ _ E).
    by apply applyEvent_visible.
  - apply IH. by rewrite processLine_no_event.
Qed.

(** A streaming run depends on its body through the events only. *)
Lemma readAll_events (cs : list string) :
  Wire.visible (Llm.readAll JSON_parse Date_now startTime Llm.initial cs) =
  Wire.visible
    (fold_left (Trace.applyEvent Date_now startTime)
       (Wire.events JSON_parse cs) Llm.initial).
Proof. rewrite readAll_visible. by apply processLines_events. Qed.

(** An induction principle for the loop. *)
Lemma readAll_invariant (P : Llm.Loop -> Prop) :
  (forall a b, Wire.visible a = Wire.visible b -> P a -> P b) ->
  (forall st ev, P st -> P (Trace.applyEvent Date_now startTime st ev)) ->
  P Llm.initial ->
  forall cs, P (Llm.readAll JSON_parse Date_now startTime Llm.initial cs).
Proof.
  intros Hv Hs H0 cs. eapply Hv; [symmetry; apply readAll_events|].
  generalize (Wire.events JSON_parse cs). intros evs.
  revert H0. generalize Llm.initial. induction evs as [|ev evs IH]; intros st H; [done|].
  simpl. by apply IH, Hs.
Qed.

End EventRuns.

(** ** Lines and chunks *)

Section Framing.

Lemma split_nonempty (sep : ascii) (s : string) : Js.split sep s <> [].
Proof.
  destruct s as [|c s]; [done|]. simpl.
  destruct (Ascii.eqb c sep); [done|]. by destruct (Js.split sep s).
Qed.

Lemma split_lacks (sep : ascii) (s : string) :
  Js.lacks sep s = true -> Js.split sep s = [s].
Proof.
  induction s as [|c s IH]; [done|]. simpl.
  intros [Hc Hs]%andb_prop. apply negb_true_iff in Hc. by rewrite Hc, IH.
Qed.

Lemma split_last_lacks (sep : ascii) (s : string) :
  Js.lacks sep (Js.pop_or_empty (Js.split sep s)) = true.
Proof.
  unfold Js.pop_or_empty. induction s as [|c s IH]; [done|]. simpl.
  destruct (Ascii.eqb c sep) eqn:E.
  - pose proof (split_nonempty sep s). by destruct (Js.split sep s).
  - pose proof (split_nonempty sep s).
    destruct (Js.split sep s) as [|h [|h' t]]; [done| |done].
    simpl in *. by rewrite E.
Qed.

Lemma popped_app (l l' : list string) :
  l' <> [] -> Js.popped (l ++ l') = l ++ Js.popped l'.
Proof. apply removelast_app. Qed.

Lemma pop_app (l l' : list string) :
  l' <> [] -> Js.pop_or_empty (l ++ l') = Js.pop_or_empty l'.
Proof.
  intros H. unfold Js.pop_or_empty. induction l as [|x l IH]; [done|].
  simpl. rewrite IH. by destruct (l ++ l') eqn:E; [apply app_eq_nil in E as [_ ?]|].
Qed.

(** Splitting a text that goes on: the complete lines stay, the last
    fragment is continued. *)
Lemma split_app (sep : ascii) (s t : string) :
  Js.split sep (s +:+ t) =
  Js.popped (Js.split sep s) ++
  Js.split sep (Js.pop_or_empty (Js.split sep s) +:+ t).
Proof.
  induction s as [|c s IH]; [done|].
  change (String c s +:+ t) with (String c (s +:+ t)).
  cbn [Js.split]. pose proof (split_nonempty sep s) as Hne.
  destruct (Ascii.eqb c sep) eqn:E.
  - rewrite IH. unfold Js.popped, Js.pop_or_empty.
    by destruct (Js.split sep s).
  - rewrite IH. unfold Js.popped, Js.pop_or_empty.
    destruct (Js.split sep s) as [|h [|h' l]]; [done| |].
    + simpl. change (String c h +:+ t) with (String c (h +:+ t)).
      cbn [Js.split]. by rewrite E.
    + simpl. done.
Qed.

(** The lines a body frames are the complete lines of its text, however it
    is cut into chunks. *)
Lemma framedLines_text (buf : string) (cs : list string) :
  Js.lacks "010" buf = true ->
  Wire.framedLines buf cs =
  Js.popped (Js.split "010" (buf +:+ Trace.bodyText cs)).
Proof.
  revert buf. induction cs as [|c cs IH]; intros buf H.
  - simpl. by rewrite append_nil_r, split_lacks.
  - cbn [Wire.framedLines Trace.bodyText fold_right].
    rewrite <- append_assoc.
    rewrite (split_app _ (buf +:+ c) (Trace.bodyText cs)).
    rewrite popped_app by apply split_nonempty.
    by rewrite IH by apply split_last_lacks.
Qed.

End Framing.

(** ** Runs that deliver the same *)

Section SameRuns.

Variable JSON_parse : string -> option Llm.Document.
Variable Date_now : nat -> Z.

Lemma finalContent_visible (a b : Llm.Loop) :
  Wire.visible a = Wire.visible b -> Llm.finalContent a = Llm.finalContent b.
Proof.
  destruct a, b. unfold Wire.visible. simpl. by intros [= -> -> -> -> -> -> ->].
Qed.

(** Bodies that frame the same lines give the same run. *)
Lemma same_lines (body body' : list string) :
  Wire.framedLines "" body = Wire.framedLines "" body' ->
  Llm.delivered
    (Llm.streamCompletion JSON_parse Date_now true (Wire.streamOf body)) =
  Llm.delivered
    (Llm.streamCompletion JSON_parse Date_now true (Wire.streamOf body')) /\
  Llm.console
    (Llm.streamCompletion JSON_parse Date_now true (Wire.streamOf body)) =
  Llm.console
    (Llm.streamCompletion JSON_parse Date_now true (Wire.streamOf body')).
Proof.
  intros H. unfold Llm.streamCompletion, Wire.streamOf. simpl. split.
  - apply finish_visible. rewrite !readAll_visible. simpl. by rewrite H.
  - rewrite !readAll_console. simpl. by rewrite H.
Qed.

Lemma lacks_app (c : ascii) (s t : string) :
  Js.lacks c s = true -> Js.lacks c t = true -> Js.lacks c (s +:+ t) = true.
Proof.
  intros Hs Ht. induction s as [|x s IH]; [done|].
  change (String x s +:+ t) with (String x (s +:+ t)). simpl in *.
  apply andb_prop in Hs as [Hx Hs]. by rewrite Hx, IH.
Qed.

Lemma bodyText_app (cs cs' : list string) :
  Trace.bodyText (cs ++ cs') = Trace.bodyText cs +:+ Trace.bodyText cs'.
Proof.
  induction cs as [|c cs IH]; [done|].
  simpl. change (Trace.bodyText (cs ++ cs')) with
    (fold_right String.append "" (cs ++ cs')) in IH.
  unfold Trace.bodyText in *. simpl. by rewrite IH, append_assoc.
Qed.

End SameRuns.

(** X1.  Every run of [streamCompletion] delivers exactly one terminal
    notification, and delivers it last; in non-streaming mode it is the
    only notification. *)
Theorem one_terminal_notification
    (JSON_parse : string -> option Llm.Document) (Date_now : nat -> Z)
    (stream : bool) (fetched : Llm.FetchResult) :
  exists updates terminal,
    Llm.delivered (Llm.streamCompletion JSON_parse Date_now stream fetched)
      = updates ++ [terminal] /\
    Llm.isTerminal terminal = true /\
    Forall (fun n => Llm.isTerminal n = false) updates /\
    (if stream then True else updates = []).
Proof.
  unfold Llm.streamCompletion.
  destruct fetched as [e|r]; [exists [], (Llm.onError e); by destruct stream|].
  destruct (Llm.ok r); cbn [negb];
    [|eexists [], (Llm.onError _); by destruct stream].
  destruct stream; cbn [negb].
  - destruct (Llm.body r) as [b|]; [|by eexists [], (Llm.onError _)].
    pose proof (readAll_quiet JSON_parse Date_now (Date_now 0%nat)
                  (Llm.chunks b) Llm.initial (Forall_nil_2 _)) as Hq.
    destruct (Llm.ending b); simpl; eexists _, _; by repeat split.
  - destruct (Llm.json r) as [e|data]; [by exists [], (Llm.onError e)|].
    unfold Llm.nonStreaming.
    destruct (_ ≫= _); simpl; by eexists [], _.
Qed.

(** X2.  In streaming mode the token count of the final statistics is the
    number of events that carried a non-empty reasoning or answer delta. *)
Theorem token_count_counts_events
    (JSON_parse : string -> option Llm.Document) (Date_now : nat -> Z)
    (body : list string) :
  exists stats,
    Trace.finishedStats
      (Llm.streamCompletion JSON_parse Date_now true (Wire.streamOf body))
      = Some stats /\
    Llm.tokenCount stats =
      Z.of_nat
        (length (List.filter Trace.carriesText (Wire.events JSON_parse body))).
Proof.
  unfold Llm.streamCompletion, Wire.streamOf, Trace.finishedStats. simpl.
  rewrite last_snoc. eexists. split; [done|]. simpl.
  set (t0 := Date_now 0%nat).
  assert (forall evs st,
            Llm.l_tokenCount (fold_left (Trace.applyEvent Date_now t0) evs st) =
            Llm.l_tokenCount st +
            Z.of_nat (length (List.filter Trace.carriesText evs))) as Hcount.
  { induction evs as [|[c r] evs IH]; intros st; [simpl; lia|].
    cbn [fold_left List.filter]. rewrite IH.
    unfold Trace.applyEvent, Trace.carriesText, Llm.mergeContent,
      Llm.mergeReasoning. simpl.
    destruct (Js.truthy c), (Js.truthy r); simpl; lia. }
  pose proof (readAll_events JSON_parse Date_now t0 body) as Hv.
  unfold Wire.visible in Hv. injection Hv as _ _ Ht _ _ _ _.
  rewrite Ht, Hcount. done.
Qed.

(** X3.  When no event carries a reasoning delta, no tag is inserted: the
    final content is the answer deltas, one after the other. *)
Theorem answer_only_content
    (JSON_parse : string -> option Llm.Document) (Date_now : nat -> Z)
    (body : list string) :
  Forall (fun ev => ev.2 = "") (Wire.events JSON_parse body) ->
  Wire.finished
    (Llm.streamCompletion JSON_parse Date_now true (Wire.streamOf body))
  = Some (Trace.answerText (Wire.events JSON_parse body)).
Proof.
  intros H. unfold Llm.streamCompletion, Wire.streamOf. simpl.
  rewrite finished_finish. f_equal.
  set (t0 := Date_now 0%nat).
  rewrite (finalContent_visible _ _ (readAll_events JSON_parse Date_now t0 body)).
  revert H. generalize (Wire.events JSON_parse body). intros evs H.
  assert (forall st,
            Llm.hasStartedReasoning st = false ->
            Llm.finalContent (fold_left (Trace.applyEvent Date_now t0) evs st) =
            Llm.accumulatedContent st +:+ Trace.answerText evs) as Hrun.
  { induction H as [|[c r] evs Hr H IH]; intros st Hs.
    - cbn [fold_left]. unfold Llm.finalContent. rewrite Hs. simpl.
      by rewrite append_nil_r.
    - simpl in Hr. subst r. cbn [fold_left Trace.answerText fold_right].
      rewrite IH.
      + unfold Trace.applyEvent, Llm.mergeContent, Llm.mergeReasoning. simpl.
        destruct (Js.truthy c) eqn:Hc; simpl.
        * rewrite Hs. simpl. by rewrite append_assoc.
        * apply truthy_empty in Hc as ->. done.
      + unfold Trace.applyEvent, Llm.mergeContent, Llm.mergeReasoning. simpl.
        by destruct (Js.truthy c). }
  by rewrite Hrun.
Qed.

Lemma answer_only_content_witness :
  Wire.finished
    (Llm.streamCompletion Demo.JSON_parse Demo.Date_now true
       (Wire.streamOf Demo.helloWorld))
  = Some (Trace.answerText (Wire.events Demo.JSON_parse Demo.helloWorld)).
Proof.
  apply (answer_only_content Demo.JSON_parse Demo.Date_now Demo.helloWorld).
  vm_compute. repeat constructor.
Defined.

(** ** Pace and counts of the notifications *)

Section Pace.

Variable JSON_parse : string -> option Llm.Document.
Variable Date_now : nat -> Z.
Variable startTime : Z.

Lemma paced_snoc_terminal (ns : list Llm.Notification) (t : Llm.Notification) :
  Trace.paced ns -> Llm.isTerminal t = true -> Trace.paced (ns ++ [t]).
Proof.
  intros Hp Ht i c1 s1 c2 s2 H1 H2.
  destruct (decide (S i < length ns)%nat) as [Hi|Hi].
  - rewrite lookup_app_l in H1, H2 by lia. by eapply Hp.
  - rewrite lookup_app_r in H2 by lia.
    destruct (S i - length ns)%nat; simpl in H2; [|done].
    injection H2 as ->. done.
Qed.

Lemma paced_snoc_update (ns : list Llm.Notification) (c : string) (s : Llm.Stats) :
  Trace.paced ns ->
  (forall c1 s1, last ns = Some (Llm.onUpdate c1 s1) ->
                 33 < Trace.elapsedMs s - Trace.elapsedMs s1) ->
  Trace.paced (ns ++ [Llm.onUpdate c s]).
Proof.
  intros Hp Hl i c1 s1 c2 s2 H1 H2.
  destruct (decide (S i < length ns)%nat) as [Hi|Hi].
  - rewrite lookup_app_l in H1, H2 by lia. by eapply Hp.
  - rewrite lookup_app_r in H2 by lia.
    destruct (S i - length ns)%nat eqn:E; simpl in H2; [|done].
    injection H2 as <- <-.
    rewrite lookup_app_l in H1 by lia. apply (Hl c1 s1).
    rewrite last_lookup. by replace (Nat.pred (length ns)) with i by lia.
Qed.

Lemma applyEvent_paced (st : Llm.Loop) (ev : string * string) :
  Trace.pacedLoop startTime st ->
  Trace.pacedLoop startTime (Trace.applyEvent Date_now startTime st ev).
Proof.
  destruct ev as [c r]. intros [Hp Hl].
  assert (Trace.pacedLoop startTime
            (Llm.mergeContent c (Llm.mergeReasoning r st))) as [Hp' Hl'].
  { unfold Llm.mergeContent, Llm.mergeReasoning.
    by destruct (Js.truthy c), (Js.truthy r). }
  unfold Trace.applyEvent. simpl. destruct (_ || _); [|done].
  set (st2 := Llm.mergeContent c (Llm.mergeReasoning r st)) in *.
  unfold Trace.pacedLoop, Llm.countAndNotify. simpl.
  destruct (33 <? _) eqn:E; [|done]. apply Z.ltb_lt in E.
  rewrite last_snoc. split.
  - apply paced_snoc_update; [done|]. intros c1 s1 Hlast.
    rewrite Hlast in Hl'. unfold Trace.elapsedMs in *. simpl. lia.
  - unfold Trace.elapsedMs. simpl. lia.
Qed.

Lemma readAll_paced (cs : list string) :
  Trace.pacedLoop startTime
    (Llm.readAll JSON_parse Date_now startTime Llm.initial cs).
Proof.
  apply readAll_invariant.
  - intros [] []. unfold Wire.visible, Trace.pacedLoop. simpl.
    by intros [= -> -> -> -> -> -> ->].
  - intros st ev. apply applyEvent_paced.
  - split; [|done]. by intros i c1 s1 c2 s2 H.
Qed.

Lemma counting_snoc (ns : list Llm.Notification) (n : Llm.Notification)
    (s : Llm.Stats) :
  Trace.counting ns ->
  Trace.statsOf n = Some s ->
  (forall m sm, m ∈ ns -> Trace.statsOf m = Some sm ->
     Llm.tokenCount sm <= Llm.tokenCount s /\
     (Llm.isTerminal n = false -> Llm.tokenCount sm < Llm.tokenCount s)) ->
  Trace.counting (ns ++ [n]).
Proof.
  intros Hc Hs Hn i j n1 n2 s1 s2 Hij H1 H2 Hs1 Hs2.
  destruct (decide (j < length ns)%nat) as [Hj|Hj].
  - rewrite lookup_app_l in H1, H2 by lia. by eapply (Hc i j).
  - rewrite lookup_app_r in H2 by lia.
    destruct (j - length ns)%nat eqn:E; simpl in H2; [|done].
    injection H2 as <-. rewrite Hs in Hs2. injection Hs2 as <-.
    rewrite lookup_app_l in H1 by lia.
    apply (Hn n1 s1); [by eapply list_elem_of_lookup_2|done].
Qed.

Lemma counting_snoc_error (ns : list Llm.Notification) (e : Llm.Error) :
  Trace.counting ns -> Trace.counting (ns ++ [Llm.onError e]).
Proof.
  intros Hc i j n1 n2 s1 s2 Hij H1 H2 Hs1 Hs2.
  destruct (decide (j < length ns)%nat) as [Hj|Hj].
  - rewrite lookup_app_l in H1, H2 by lia. by eapply (Hc i j).
  - rewrite lookup_app_r in H2 by lia.
    destruct (j - length ns)%nat eqn:E; simpl in H2; [|done].
    by injection H2 as <-.
Qed.

Lemma applyEvent_counting (st : Llm.Loop) (ev : string * string) :
  Trace.countingLoop st ->
  Trace.countingLoop (Trace.applyEvent Date_now startTime st ev).
Proof.
  destruct ev as [c r]. intros [Hc Hb].
  assert (Trace.countingLoop
            (Llm.mergeContent c (Llm.mergeReasoning r st))) as [Hc' Hb'].
  { unfold Llm.mergeContent, Llm.mergeReasoning.
    by destruct (Js.truthy c), (Js.truthy r). }
  unfold Trace.applyEvent. simpl. destruct (_ || _); [|done].
  set (st2 := Llm.mergeContent c (Llm.mergeReasoning r st)) in *.
  unfold Trace.countingLoop, Llm.countAndNotify. simpl.
  destruct (33 <? _).
  - split.
    + eapply counting_snoc; [done|done|]. intros m sm Hm Hsm.
      specialize (Hb' m sm Hm Hsm). simpl. lia.
    + intros n s [Hn|Hn]%elem_of_app Hs.
      * specialize (Hb' n s Hn Hs). lia.
      * apply list_elem_of_singleton in Hn as ->. injection Hs as <-. simpl. lia.
  - split; [done|]. intros n s Hn Hs. specialize (Hb' n s Hn Hs). lia.
Qed.

Lemma readAll_counting (cs : list string) :
  Trace.countingLoop (Llm.readAll JSON_parse Date_now startTime Llm.initial cs).
Proof.
  apply readAll_invariant.
  - intros [] []. unfold Wire.visible, Trace.countingLoop. simpl.
    by intros [= -> -> -> -> -> -> ->].
  - intros st ev. apply applyEvent_counting.
  - split.
    + by intros i j n1 n2 s1 s2 _ H.
    + intros n s Hn. by apply elem_of_nil in Hn.
Qed.

Lemma counting_one (n : Llm.Notification) : Trace.counting [n].
Proof.
  intros i j n1 n2 s1 s2 Hij _ H. destruct j as [|j]; [lia|]. done.
Qed.

Lemma paced_one (n : Llm.Notification) : Trace.paced [n].
Proof. by intros i c1 s1 c2 s2 _ H. Qed.

End Pace.

(** X4.  Whatever the clock, two partial results delivered one after the
    other were made from clock readings more than 33 ms apart. *)
Theorem updates_paced
    (JSON_parse : string -> option Llm.Document) (Date_now : nat -> Z)
    (stream : bool) (fetched : Llm.FetchResult) :
  Trace.paced
    (Llm.delivered (Llm.streamCompletion JSON_parse Date_now stream fetched)).
Proof.
  unfold Llm.streamCompletion.
  destruct fetched as [e|r]; [apply paced_one|].
  destruct (Llm.ok r); cbn [negb]; [|apply paced_one].
  destruct stream; cbn [negb].
  - destruct (Llm.body r) as [b|]; [|apply paced_one].
    destruct (readAll_paced JSON_parse Date_now (Date_now 0%nat) (Llm.chunks b))
      as [Hp _].
    destruct (Llm.ending b); simpl; by apply paced_snoc_terminal.
  - destruct (Llm.json r) as [e|data]; [apply paced_one|].
    unfold Llm.nonStreaming. destruct (_ ≫= _); apply paced_one.
Qed.

(** X5.  The token count shown never goes back: it is strictly larger in
    every partial result than in the notifications before it, and the final
    count is at least that of every partial result. *)
Theorem token_counts_increase
    (JSON_parse : string -> option Llm.Document) (Date_now : nat -> Z)
    (stream : bool) (fetched : Llm.FetchResult) :
  Trace.counting
    (Llm.delivered (Llm.streamCompletion JSON_parse Date_now stream fetched)).
Proof.
  unfold Llm.streamCompletion.
  destruct fetched as [e|r]; [apply counting_one|].
  destruct (Llm.ok r); cbn [negb]; [|apply counting_one].
  destruct stream; cbn [negb].
  - destruct (Llm.body r) as [b|]; [|apply counting_one].
    destruct (readAll_counting JSON_parse Date_now (Date_now 0%nat) (Llm.chunks b))
      as [Hc Hb].
    destruct (Llm.ending b); simpl; [|by apply counting_snoc_error].
    eapply counting_snoc; [done|done|]. intros m sm Hm Hsm.
    specialize (Hb m sm Hm Hsm). simpl. split; [lia|done].
  - destruct (Llm.json r) as [e|data]; [apply counting_one|].
    unfold Llm.nonStreaming. destruct (_ ≫= _); apply counting_one.
Qed.

(** ** Chunks, ignored lines and the two modes *)

(** X6.  How the body is cut into chunks does not matter: two bodies with
    the same text give the same notifications and the same console. *)
Theorem chunking_irrelevant
    (JSON_parse : string -> option Llm.Document) (Date_now : nat -> Z)
    (body body' : list string) :
  Trace.bodyText body = Trace.bodyText body' ->
  Llm.delivered
    (Llm.streamCompletion JSON_parse Date_now true (Wire.streamOf body)) =
  Llm.delivered
    (Llm.streamCompletion JSON_parse Date_now true (Wire.streamOf body')) /\
  Llm.console
    (Llm.streamCompletion JSON_parse Date_now true (Wire.streamOf body)) =
  Llm.console
    (Llm.streamCompletion JSON_parse Date_now true (Wire.streamOf body')).
Proof.
  intros H. apply same_lines.
  rewrite !framedLines_text by done.
  change ("" +:+ Trace.bodyText body) with (Trace.bodyText body).
  change ("" +:+ Trace.bodyText body') with (Trace.bodyText body').
  by rewrite H.
Qed.

Lemma chunking_irrelevant_witness :
  Llm.delivered
    (Llm.streamCompletion Demo.JSON_parse Demo.Date_now true
       (Wire.streamOf Demo.thinkThenAnswer)) =
  Llm.delivered
    (Llm.streamCompletion Demo.JSON_parse Demo.Date_now true
       (Wire.streamOf Trace.recut)) /\
  Llm.console
    (Llm.streamCompletion Demo.JSON_parse Demo.Date_now true
       (Wire.streamOf Demo.thinkThenAnswer)) =
  Llm.console
    (Llm.streamCompletion Demo.JSON_parse Demo.Date_now true
       (Wire.streamOf Trace.recut)).
Proof.
  exact (chunking_irrelevant Demo.JSON_parse Demo.Date_now
           Demo.thinkThenAnswer Trace.recut eq_refl).
Defined.

(** X7.  What follows the last newline of the body is never processed: a
    last chunk without a newline, even one that completes an event, changes
    neither the notifications nor the console. *)
Theorem unterminated_line_dropped
    (JSON_parse : string -> option Llm.Document) (Date_now : nat -> Z)
    (body : list string) (fragment : string) :
  Js.lacks "010" fragment = true ->
  Llm.delivered
    (Llm.streamCompletion JSON_parse Date_now true
       (Wire.streamOf (body ++ [fragment]))) =
  Llm.delivered
    (Llm.streamCompletion JSON_parse Date_now true (Wire.streamOf body)) /\
  Llm.console
    (Llm.streamCompletion JSON_parse Date_now true
       (Wire.streamOf (body ++ [fragment]))) =
  Llm.console
    (Llm.streamCompletion JSON_parse Date_now true (Wire.streamOf body)).
Proof.
  intros H. apply same_lines.
  rewrite !framedLines_text by done.
  change ("" +:+ Trace.bodyText (body ++ [fragment]))
    with (Trace.bodyText (body ++ [fragment])).
  change ("" +:+ Trace.bodyText body) with (Trace.bodyText body).
  rewrite bodyText_app, split_app.
  change (Trace.bodyText [fragment]) with (fragment +:+ "").
  rewrite append_nil_r.
  rewrite (split_lacks _
             (Js.pop_or_empty (Js.split "010" (Trace.bodyText body)) +:+ fragment))
    by (apply lacks_app; [apply split_last_lacks|done]).
  apply removelast_last.
Qed.

Lemma unterminated_line_dropped_witness :
  Wire.finished
    (Llm.streamCompletion Demo.JSON_parse Demo.Date_now true
       (Wire.streamOf
          ([Demo.contentLine "Hello" +:+ Demo.nl] ++
           [Demo.contentLine " world"]))) = Some "Hello".
Proof.
  unfold Wire.finished.
  rewrite (proj1 (unterminated_line_dropped Demo.JSON_parse Demo.Date_now
                    [Demo.contentLine "Hello" +:+ Demo.nl]
                    (Demo.contentLine " world") eq_refl)).
  reflexivity.
Defined.

(** X8.  A line that does not start, once trimmed, with [data: ], and the
    [[DONE]] sentinel, are passed over in silence, and the loop goes on
    after them: the run on a body with such a line is the run on the body
    without it, console included. *)
Theorem ignored_line_changes_nothing
    (JSON_parse : string -> option Llm.Document) (Date_now : nat -> Z)
    (line : string) (body body' : list string) (before after : list string) :
  Wire.payloadOf line = None ->
  Wire.framedLines "" body = before ++ line :: after ->
  Wire.framedLines "" body' = before ++ after ->
  Llm.delivered
    (Llm.streamCompletion JSON_parse Date_now true (Wire.streamOf body)) =
  Llm.delivered
    (Llm.streamCompletion JSON_parse Date_now true (Wire.streamOf body')) /\
  Llm.console
    (Llm.streamCompletion JSON_parse Date_now true (Wire.streamOf body)) =
  Llm.console
    (Llm.streamCompletion JSON_parse Date_now true (Wire.streamOf body')).
Proof.
  intros Hp Hb Hb'.
  assert (forall startTime st,
            Llm.processLine JSON_parse Date_now startTime st line = st) as Hline.
  { intros startTime st. unfold Llm.processLine. revert Hp.
    unfold Wire.payloadOf. destruct (negb _); [done|].
    by destruct (String.eqb _ _). }
  unfold Llm.streamCompletion, Wire.streamOf. simpl. split.
  - apply finish_visible. rewrite !readAll_visible. simpl. rewrite Hb, Hb'.
    rewrite !fold_left_app. simpl. by rewrite Hline.
  - rewrite !readAll_console. simpl. rewrite Hb, Hb', !flat_map_app. simpl.
    unfold Wire.diagnostics at 2. by rewrite Hp.
Qed.

Lemma ignored_line_changes_nothing_witness :
  Llm.delivered
    (Llm.streamCompletion Demo.JSON_parse Demo.Date_now true
       (Wire.streamOf Trace.withSentinel)) =
  Llm.delivered
    (Llm.streamCompletion Demo.JSON_parse Demo.Date_now true
       (Wire.streamOf Trace.withoutSentinel)) /\
  Llm.console
    (Llm.streamCompletion Demo.JSON_parse Demo.Date_now true
       (Wire.streamOf Trace.withSentinel)) =
  Llm.console
    (Llm.streamCompletion Demo.JSON_parse Demo.Date_now true
       (Wire.streamOf Trace.withoutSentinel)).
Proof.
  exact (ignored_line_changes_nothing Demo.JSON_parse Demo.Date_now
           "data: [DONE]" Trace.withSentinel Trace.withoutSentinel
           [Demo.contentLine "Hello"] [Demo.contentLine " world"]
           eq_refl eq_refl eq_refl).
Defined.

(** X9.  The two modes merge alike: a non-streaming response whose message
    has the reasoning and the content of the one event of a streamed body
    ends with the same content as that body. *)
Theorem non_streaming_as_one_event
    (JSON_parse : string -> option Llm.Document) (Date_now : nat -> Z)
    (data : Llm.Document) (m : Llm.Fields) (body : list string) :
  default [] (Llm.choices data) !! 0%nat ≫= Llm.c_message = Some m ->
  Wire.events JSON_parse body =
    [(Js.or (Llm.f_content m) "",
      Js.or (Llm.f_reasoning_content m) (Js.or (Llm.f_reasoning m) ""))] ->
  Wire.finished
    (Llm.streamCompletion JSON_parse Date_now false (Trace.jsonResponse data)) =
  Wire.finished
    (Llm.streamCompletion JSON_parse Date_now true (Wire.streamOf body)).
Proof.
  intros Hm He. unfold Llm.streamCompletion, Trace.jsonResponse, Wire.streamOf.
  simpl. rewrite finished_finish. unfold Llm.nonStreaming. rewrite Hm.
  unfold Wire.finished. simpl. f_equal.
  set (t0 := Date_now 0%nat).
  rewrite (finalContent_visible _ _ (readAll_events JSON_parse Date_now t0 body)).
  rewrite He. simpl.
  generalize (Js.or (Llm.f_content m) "").
  generalize (Js.or (Llm.f_reasoning_content m) (Js.or (Llm.f_reasoning m) "")).
  intros r c. unfold Trace.applyEvent, Llm.mergeContent, Llm.mergeReasoning,
    Llm.finalContent. simpl.
  destruct (Js.truthy c) eqn:Hc, (Js.truthy r) eqn:Hr; simpl;
    try (apply truthy_empty in Hc as ->); try (apply truthy_empty in Hr as ->);
    by_strings.
Qed.

Lemma non_streaming_as_one_event_witness :
  Wire.finished
    (Llm.streamCompletion Demo.JSON_parse Demo.Date_now false
       (Trace.jsonResponse
          (Demo.messageDocument None (Some "Let me think") None))) =
  Wire.finished
    (Llm.streamCompletion Demo.JSON_parse Demo.Date_now true
       (Wire.streamOf Trace.onlyReasoning1)).
Proof.
  exact (non_streaming_as_one_event Demo.JSON_parse Demo.Date_now
           (Demo.messageDocument None (Some "Let me think") None)
           {| Llm.f_content := None; Llm.f_reasoning_content := None;
              Llm.f_reasoning := Some "Let me think" |}
           Trace.onlyReasoning1 eq_refl eq_refl).
Defined.


(** * Further properties of the request *)

Section RequestFacts.

Lemma dropFinalSlash_slash (u : string) : Request.dropFinalSlash (u +:+ "/") = u.
Proof.
  induction u as [|c u IH]; [done|].
  change (String c u +:+ "/") with (String c (u +:+ "/")).
  cbn [Request.dropFinalSlash]. rewrite IH. by destruct u.
Qed.

Lemma dropFinalSlash_other (u : string) (c : ascii) :
  c <> "/"%char ->
  Request.dropFinalSlash (u +:+ String c "") = u +:+ String c "".
Proof.
  intros Hc. induction u as [|x u IH].
  - simpl. by apply Ascii.eqb_neq in Hc as ->.
  - change (String x u +:+ String c "") with (String x (u +:+ String c "")).
    cbn [Request.dropFinalSlash]. rewrite IH. by destruct u.
Qed.

Lemma encode_role (m : App.Message) : Request.role (Request.encode m) = App.role m.
Proof.
  unfold Request.encode. by destruct (App.role m), (App.images m) as [[|]|].
Qed.

Lemma omap_text_urls (t : string) (imgs : list string) :
  omap (fun p => match p with Request.text t => Some t | _ => None end)
    (Request.text t :: map Request.image_url imgs) = [t] /\
  omap (fun p => match p with Request.image_url u => Some u | _ => None end)
    (Request.text t :: map Request.image_url imgs) = imgs.
Proof.
  simpl. induction imgs as [|i imgs [IH1 IH2]]; [done|].
  simpl. split; [done|]. by rewrite IH2.
Qed.

Lemma encode_text (m : App.Message) :
  Request.textOf (Request.encode m) = [App.content m].
Proof.
  unfold Request.encode, Request.textOf.
  destruct (App.role m), (App.images m) as [[|i imgs]|]; try done.
  apply (omap_text_urls _ (i :: imgs)).
Qed.

Lemma encode_urls (m : App.Message) :
  Request.urlsOf (Request.encode m) = Request.sentImages m.
Proof.
  unfold Request.encode, Request.urlsOf, Request.sentImages.
  destruct (App.role m), (App.images m) as [[|i imgs]|]; try done.
  apply (omap_text_urls _ (i :: imgs)).
Qed.

End RequestFacts.

(** X10.  The request goes to the base address followed by
    [/chat/completions]; one slash that ends the base address is dropped,
    and no more than one. *)
Theorem endpoint_drops_one_slash (u : string) :
  Request.endpoint (u +:+ "/") = u +:+ "/chat/completions" /\
  (forall c, c <> "/"%char ->
     Request.endpoint (u +:+ String c "") =
     (u +:+ String c "") +:+ "/chat/completions").
Proof.
  unfold Request.endpoint. split.
  - by rewrite dropFinalSlash_slash.
  - intros c Hc. by rewrite dropFinalSlash_other.
Qed.

(** X11.  The messages of the request are the system prompt, when it is
    not empty, and then the given turns, in their order, each with its role
    and its text. *)
Theorem request_turns_in_order
    (modelName : string) (msgs : list App.Message) (systemPrompt : option string)
    (temp : option Q) (effort : option App.ReasoningEffort) (streaming : bool) :
  let body :=
    Request.requestBody modelName msgs systemPrompt temp effort streaming in
  let prompt := Js.or systemPrompt "" in
  map Request.role (Request.messages body) =
    (if Js.truthy prompt then [App.system] else []) ++ map App.role msgs /\
  flat_map Request.textOf (Request.messages body) =
    (if Js.truthy prompt then [prompt] else []) ++ map App.content msgs.
Proof.
  simpl. rewrite map_map, flat_map_concat_map, map_map.
  rewrite !map_app, concat_app. split.
  - f_equal; [by destruct (Js.truthy _)|].
    apply map_ext. intros m. apply encode_role.
  - f_equal; [by destruct (Js.truthy _)|].
    induction msgs as [|m msgs IH]; [done|].
    simpl. by rewrite encode_text, IH.
Qed.

(** X12.  The image addresses in the request are those of the user turns,
    in order: the images of any other turn are not sent. *)
Theorem request_images_of_user_turns
    (modelName : string) (msgs : list App.Message) (systemPrompt : option string)
    (temp : option Q) (effort : option App.ReasoningEffort) (streaming : bool) :
  flat_map Request.urlsOf
    (Request.messages
       (Request.requestBody modelName msgs systemPrompt temp effort streaming)) =
  flat_map Request.sentImages msgs.
Proof.
  simpl. rewrite map_app, flat_map_app.
  assert (flat_map Request.urlsOf
            (map Request.encode
               (if Js.truthy (Js.or systemPrompt "")
                then [Request.systemMessage (Js.or systemPrompt "")] else []))
          = []) as -> by (by destruct (Js.truthy _)).
  simpl. induction msgs as [|m msgs IH]; [done|].
  simpl. by rewrite encode_urls, IH.
Qed.

(** * Further properties of the saved servers *)

(** X13.  The list of saved servers stays free of duplicates and of the
    empty address when servers are added and removed; an added address is in
    the list, and a removed one no longer is. *)
Theorem servers_stay_distinct (apiUrl server : string) (servers : list string) :
  NoDup servers -> "" ∉ servers ->
  NoDup (Settings.handleAddServer apiUrl servers) /\
  ("" ∉ Settings.handleAddServer apiUrl servers) /\
  (apiUrl <> "" -> apiUrl ∈ Settings.handleAddServer apiUrl servers) /\
  NoDup (Settings.handleRemoveServer server servers) /\
  ("" ∉ Settings.handleRemoveServer server servers) /\
  (server ∉ Settings.handleRemoveServer server servers).
Proof.
  intros Hd He. unfold Settings.handleAddServer, Settings.handleRemoveServer.
  assert (forall s, s ∈ List.filter (fun s => negb (String.eqb s server)) servers
                    <-> s ∈ servers /\ s <> server) as Hf.
  { intros s. rewrite !list_elem_of_In, filter_In, negb_true_iff.
    by rewrite String.eqb_neq. }
  split; [|split; [|split; [|split; [|split]]]].
  - destruct (Js.truthy apiUrl); simpl; [|done]. case_bool_decide; simpl; [done|].
    apply NoDup_app. split; [done|]. split; [|apply NoDup_singleton].
    intros x Hx ->%list_elem_of_singleton. done.
  - destruct (Js.truthy apiUrl) eqn:Ht; simpl; [|done].
    case_bool_decide; simpl; [done|].
    intros [?|Hin]%elem_of_app; [done|].
    apply list_elem_of_singleton in Hin. by subst apiUrl.
  - intros Hn. apply truthy_nonempty in Hn. rewrite Hn. simpl.
    case_bool_decide; simpl; [done|]. apply elem_of_app. right.
    by apply list_elem_of_singleton.
  - apply NoDup_ListNoDup, List.NoDup_filter. by apply NoDup_ListNoDup.
  - rewrite Hf. tauto.
  - rewrite Hf. tauto.
Qed.

Lemma servers_stay_distinct_witness :
  NoDup (Settings.handleAddServer "http://b/v1" ["http://a/v1"]) /\
  ("http://b/v1" ∈ Settings.handleAddServer "http://b/v1" ["http://a/v1"]) /\
  ("http://a/v1" ∉ Settings.handleRemoveServer "http://a/v1" ["http://a/v1"]).
Proof.
  assert (NoDup ["http://a/v1"]) as Hd by apply NoDup_singleton.
  assert ("" ∉ ["http://a/v1"]) as He
    by (intros H; by apply list_elem_of_singleton in H).
  destruct (servers_stay_distinct "http://b/v1" "http://a/v1" ["http://a/v1"]
              Hd He) as (H1 & _ & H2 & _ & _ & H3).
  split; [exact H1|]. split; [|exact H3]. by apply H2.
Defined.


(** * Further properties of the version tree and the controller *)

Section ControllerFacts.

Lemma insert_last {A} (pre : list A) (x y : A) :
  <[length pre := y]> (pre ++ [x]) = pre ++ [y].
Proof.
  replace (length pre) with (length pre + 0)%nat at 1 by lia.
  by rewrite insert_app_r.
Qed.

Lemma lookup_end {A} (pre : list A) (x : A) :
  (pre ++ [x]) !! length pre = Some x.
Proof. by rewrite list_lookup_middle. Qed.

Lemma writeActive_last (pre : list App.Message) (m : App.Message)
    (content : string) (stats : Llm.Stats) :
  App.onFinish_messages (Some (length pre)) content stats (pre ++ [m]) =
  pre ++ [App.writeActive m content stats] /\
  App.onUpdate_messages (Some (length pre)) content stats (pre ++ [m]) =
  pre ++ [App.writeActive m content stats].
Proof.
  unfold App.onFinish_messages, App.onUpdate_messages. simpl.
  by rewrite lookup_end, insert_last.
Qed.

(** What [handleRegenerate] makes of the message list. *)
Lemma handleRegenerate_messages
    (st : App.State) (pre : list App.Message) (lastMsg : App.Message) :
  App.isLoading st = false ->
  App.messages st = pre ++ [lastMsg] ->
  App.role lastMsg = App.assistant ->
  let saved :=
    match App.siblings lastMsg with
    | Some sibs => sibs
    | None =>
        [Some {| App.s_role := Some App.assistant;
                 App.s_content := App.content lastMsg;
                 App.s_stats := App.stats lastMsg |}]
    end in
  App.messages (App.handleRegenerate st).1 =
    pre ++
    [{| App.role := App.assistant; App.content := "";
        App.images := App.images lastMsg; App.stats := None;
        App.siblings :=
          Some (saved ++
                [Some {| App.s_role := Some App.assistant;
                         App.s_content := ""; App.s_stats := None |}]);
        App.siblingIndex := Some (length saved) |}].
Proof.
  intros Hl Hm Hr. unfold App.handleRegenerate.
  rewrite Hl, Hm, lookup_last, Hr. simpl.
  assert ((length (pre ++ [lastMsg]) =? 0)%nat = false) as ->
    by (apply Nat.eqb_neq; rewrite length_app; simpl; lia).
  assert (length (pre ++ [lastMsg]) - 1 = length pre)%nat as ->
    by (rewrite length_app; simpl; lia).
  rewrite insert_last.
  assert (forall sibs : list (option App.Sibling) , forall x,
            (length (sibs ++ [x]) - 1 = length sibs)%nat) as Hlen
    by (intros; rewrite length_app; simpl; lia).
  destruct (App.truthyId (App.currentChatId st)); simpl;
    destruct (App.siblings lastMsg); by rewrite ?Hlen.
Qed.

(** What [handleVersionChange] does with an index that names a sibling. *)
Lemma handleVersionChange_valid
    (index : nat) (newVersionIndex : Z) (st : App.State) (msg : App.Message)
    (sibs : list (option App.Sibling)) (sib : App.Sibling) :
  App.messages st !! index = Some msg ->
  App.siblings msg = Some sibs ->
  Js.array_at sibs newVersionIndex = Some sib ->
  let m :=
    {| App.role := App.role msg; App.content := App.s_content sib;
       App.images := App.images msg; App.stats := App.s_stats sib;
       App.siblings := Some sibs;
       App.siblingIndex := Some (Z.to_nat newVersionIndex) |} in
  let ms := <[index := m]> (App.messages st) in
  exists st',
    App.handleVersionChange index newVersionIndex st =
      Some (st',
            match App.truthyId (App.currentChatId st)
                    ≫= (fun chat => App.find_session chat (App.sessions st)) with
            | Some s => [App.saveSession (App.with_messages s ms)]
            | None => []
            end) /\
    App.messages st' = ms /\
    App.isLoading st' = App.isLoading st /\
    App.currentChatId st' = App.currentChatId st.
Proof.
  intros Hm Hs Ha. unfold App.handleVersionChange. rewrite Hm, Hs. simpl.
  rewrite Ha. destruct (App.truthyId (App.currentChatId st)) as [chat|]; simpl.
  - destruct (App.find_session chat (App.sessions st)); eexists; by repeat split.
  - eexists; by repeat split.
Qed.

Lemma array_at_get {A} (l : list (option A)) (i : Z) (v : A) :
  Js.array_at l i = Some v -> Js.array_get l (Z.to_nat i) = Some v.
Proof. unfold Js.array_at. by destruct (i <? 0). Qed.

Lemma string_of_int_truthy (i : Decimal.int) :
  Js.truthy (NilZero.string_of_int i) = true.
Proof. destruct i as [d|d]; [by destruct d|done]. Qed.

End ControllerFacts.

(** X14.  [onUpdate] and [onFinish] write to the turn they target and to
    nothing else: the list keeps its length, every other turn is as it was,
    the target keeps its role, its images and its sibling index, and when
    there is no turn at the target the list is left as it is. *)
Theorem write_touches_only_target
    (targetIndex : option nat) (content : string) (stats : Llm.Stats)
    (prev : list App.Message) :
  let i := App.actualIndex targetIndex prev in
  let next := App.onUpdate_messages targetIndex content stats prev in
  App.onFinish_messages targetIndex content stats prev = next /\
  length next = length prev /\
  (forall j, j <> i -> next !! j = prev !! j) /\
  (prev !! i = None -> next = prev) /\
  (forall m, prev !! i = Some m ->
     exists m', next !! i = Some m' /\
       App.role m' = App.role m /\ App.images m' = App.images m /\
       App.siblingIndex m' = App.siblingIndex m).
Proof.
  simpl. unfold App.onFinish_messages, App.onUpdate_messages.
  split; [done|].
  destruct (prev !! App.actualIndex targetIndex prev) as [m|] eqn:E;
    repeat split; try done.
  - apply length_insert.
  - intros j Hj. by rewrite list_lookup_insert_ne.
  - intros m' [= <-]. exists (App.writeActive m content stats).
    split; [|done]. apply list_lookup_insert_eq. by eapply lookup_lt_Some.
Qed.

(** X15.  Regenerating a turn that already has siblings keeps every version
    it had, at its index, adds one empty version after them and moves the
    sibling index to it. *)
Theorem regenerate_keeps_versions
    (st : App.State) (pre : list App.Message) (lastMsg : App.Message)
    (sibs : list (option App.Sibling)) :
  App.isLoading st = false ->
  App.messages st = pre ++ [lastMsg] ->
  App.role lastMsg = App.assistant ->
  App.siblings lastMsg = Some sibs ->
  App.messages (App.handleRegenerate st).1 =
    pre ++
    [{| App.role := App.assistant; App.content := "";
        App.images := App.images lastMsg; App.stats := None;
        App.siblings :=
          Some (sibs ++
                [Some {| App.s_role := Some App.assistant;
                         App.s_content := ""; App.s_stats := None |}]);
        App.siblingIndex := Some (length sibs) |}].
Proof.
  intros Hl Hm Hr Hs.
  rewrite (handleRegenerate_messages st pre lastMsg Hl Hm Hr). by rewrite Hs.
Qed.

Lemma regenerate_keeps_versions_witness :
  App.messages
    (App.handleRegenerate
       (Demo.chat [Demo.userTurn "q"; Demo.branchedTurn] false)).1 =
    [Demo.userTurn "q"] ++
    [{| App.role := App.assistant; App.content := "";
        App.images := None; App.stats := None;
        App.siblings :=
          Some ([Some {| App.s_role := Some App.assistant;
                         App.s_content := "first"; App.s_stats := None |};
                 Some {| App.s_role := Some App.assistant;
                         App.s_content := "second"; App.s_stats := None |}] ++
                [Some {| App.s_role := Some App.assistant;
                         App.s_content := ""; App.s_stats := None |}]);
        App.siblingIndex := Some 2%nat |}].
Proof.
  exact (regenerate_keeps_versions
           (Demo.chat [Demo.userTurn "q"; Demo.branchedTurn] false)
           [Demo.userTurn "q"] Demo.branchedTurn _
           eq_refl eq_refl eq_refl eq_refl).
Defined.

(** X16.  Choosing a version that exists copies its content and statistics
    into the turn and sets the sibling index to it; the siblings, the role
    and the images stay, the other turns stay, the turn mirrors its active
    sibling, and the new list is saved when the chat on screen has a
    session. *)
Theorem version_change_selects
    (index : nat) (newVersionIndex : Z) (st : App.State) (msg : App.Message)
    (sibs : list (option App.Sibling)) (sib : App.Sibling) :
  App.messages st !! index = Some msg ->
  App.siblings msg = Some sibs ->
  Js.array_at sibs newVersionIndex = Some sib ->
  exists st' m,
    App.handleVersionChange index newVersionIndex st =
      Some (st',
            match App.truthyId (App.currentChatId st)
                    ≫= (fun chat => App.find_session chat (App.sessions st)) with
            | Some s => [App.saveSession (App.with_messages s (App.messages st'))]
            | None => []
            end) /\
    App.messages st' = <[index := m]> (App.messages st) /\
    App.content m = App.s_content sib /\
    App.stats m = App.s_stats sib /\
    App.siblingIndex m = Some (Z.to_nat newVersionIndex) /\
    App.siblings m = Some sibs /\
    App.role m = App.role msg /\
    App.images m = App.images msg /\
    Tree.mirrored m.
Proof.
  intros Hm Hs Ha.
  destruct (handleVersionChange_valid index newVersionIndex st msg sibs sib
              Hm Hs Ha) as (st' & Hv & Hms & _).
  eexists st', _. rewrite Hms. split; [exact Hv|]. repeat split.
  intros sibs' i [= <-] [= <-]. simpl. exists sib.
  by rewrite (array_at_get _ _ _ Ha).
Qed.

Lemma version_change_selects_witness :
  exists st',
    App.handleVersionChange 1 0
      (Demo.chat [Demo.userTurn "q"; Demo.branchedTurn] false) =
    Some (st',
          [App.saveSession
             (App.with_messages
                (Demo.session "c1" [Demo.userTurn "q"; Demo.branchedTurn])
                (App.messages st'))]) /\
    App.content <$> App.messages st' !! 1%nat = Some "first".
Proof.
  destruct (version_change_selects 1 0
              (Demo.chat [Demo.userTurn "q"; Demo.branchedTurn] false)
              Demo.branchedTurn _ _ eq_refl eq_refl eq_refl)
    as (st' & m & Hv & Hms & Hc & _).
  exists st'. split; [exact Hv|]. rewrite Hms. simpl. by rewrite Hc.
Defined.

Section MoreControllerFacts.

Lemma array_set_in_range {A} (l : list (option A)) (i : nat) (v : A) :
  (i < length l)%nat -> Js.array_set l i v = <[i := Some v]> l.
Proof. intros H. unfold Js.array_set. by rewrite decide_True. Qed.

Lemma onFinish_messages_state (sessionId : string) (targetIndex : option nat)
    (content : string) (stats : Llm.Stats) (st : App.State) :
  App.messages (App.onFinish sessionId targetIndex content stats st).1 =
  App.onFinish_messages targetIndex content stats (App.messages st).
Proof. reflexivity. Qed.

Lemma find_session_updated (session : App.ChatSession)
    (ss : list App.ChatSession) :
  is_Some (App.find_session (App.id session) ss) ->
  App.find_session (App.id session)
    (map (fun s => if String.eqb (App.id s) (App.id session) then session else s)
       ss) = Some session.
Proof.
  unfold App.find_session. induction ss as [|s ss IH]; intros [x Hx]; [done|].
  simpl in *. destruct (String.eqb (App.id s) (App.id session)) eqn:E.
  - by rewrite String.eqb_refl.
  - rewrite E. apply IH. by exists x.
Qed.

Lemma find_session_other (session : App.ChatSession) (i : string)
    (ss : list App.ChatSession) :
  i <> App.id session ->
  App.find_session i
    (map (fun s => if String.eqb (App.id s) (App.id session) then session else s)
       ss) = App.find_session i ss.
Proof.
  intros Hi. unfold App.find_session. induction ss as [|s ss IH]; [done|].
  simpl. destruct (String.eqb (App.id s) (App.id session)) eqn:E.
  - apply String.eqb_eq in E.
    assert (String.eqb (App.id session) i = false) as ->
      by (apply String.eqb_neq; congruence).
    assert (String.eqb (App.id s) i = false) as ->
      by (apply String.eqb_neq; congruence).
    done.
  - by rewrite IH.
Qed.

Lemma find_session_none (i : string) (ss : list App.ChatSession) :
  App.find_session i ss = None ->
  Forall (fun s => String.eqb (App.id s) i = false) ss.
Proof.
  unfold App.find_session. induction ss as [|s ss IH]; intros H; [done|].
  simpl in H. destruct (String.eqb (App.id s) i) eqn:E; [done|].
  constructor; [done|by apply IH].
Qed.

Lemma length_append (s t : string) :
  String.length (s +:+ t) = (String.length s + String.length t)%nat.
Proof.
  induction s as [|c s IH]; [done|].
  change (String c s +:+ t) with (String c (s +:+ t)). simpl. by rewrite IH.
Qed.

Lemma length_substring (n : nat) (s : string) :
  (String.length (String.substring 0 n s) <= n)%nat.
Proof.
  revert s. induction n as [|n IH]; intros [|c s]; simpl; try lia.
  specialize (IH s). lia.
Qed.

Lemma substring_all (n : nat) (s : string) :
  (String.length s <= n)%nat -> String.substring 0 n s = s.
Proof.
  revert s. induction n as [|n IH]; intros [|c s] H; simpl in *; try done; try lia.
  rewrite IH; [done|lia].
Qed.

Lemma length_trimStart (s : string) :
  (String.length (Js.trimStart s) <= String.length s)%nat.
Proof.
  induction s as [|c s IH]; [done|]. simpl.
  destruct (Js.isWhiteSpace c); simpl; lia.
Qed.

Lemma length_rev_app (s t : string) :
  String.length (String.rev_app s t) = (String.length s + String.length t)%nat.
Proof.
  revert t. induction s as [|c s IH]; intros t; [done|].
  simpl. rewrite IH. simpl. lia.
Qed.

Lemma length_trim (s : string) :
  (String.length (Js.trim s) <= String.length s)%nat.
Proof.
  unfold Js.trim, Js.trimEnd, String.rev. rewrite length_rev_app. simpl.
  pose proof (length_trimStart (String.rev_app (Js.trimStart s) "")) as H.
  rewrite length_rev_app in H. simpl in H.
  pose proof (length_trimStart s). lia.
Qed.

End MoreControllerFacts.

(** X17.  Both answers of a regenerated turn stay at hand: after the first
    regeneration of a turn and the end of the new generation, choosing
    version 0 shows the content and statistics the turn had before, and
    choosing version 1 after that shows the new ones. *)
Theorem regenerated_answers_both_kept
    (st : App.State) (pre : list App.Message) (lastMsg : App.Message)
    (sessionId content : string) (stats : Llm.Stats) :
  App.isLoading st = false ->
  App.messages st = pre ++ [lastMsg] ->
  App.role lastMsg = App.assistant ->
  App.siblings lastMsg = None ->
  let st1 := (App.handleRegenerate st).1 in
  let st2 :=
    (App.onFinish sessionId (Some (length pre)) content stats st1).1 in
  exists st3 effs3 st4 effs4 m3 m4,
    App.handleVersionChange (length pre) 0 st2 = Some (st3, effs3) /\
    App.messages st3 = pre ++ [m3] /\
    App.content m3 = App.content lastMsg /\
    App.stats m3 = App.stats lastMsg /\
    App.siblingIndex m3 = Some 0%nat /\
    App.handleVersionChange (length pre) 1 st3 = Some (st4, effs4) /\
    App.messages st4 = pre ++ [m4] /\
    App.content m4 = content /\
    App.stats m4 = Some (App.messageStats stats) /\
    App.siblingIndex m4 = Some 1%nat.
Proof.
  intros Hl Hm Hr Hs st1 st2.
  pose proof (handleRegenerate_messages st pre lastMsg Hl Hm Hr) as H1.
  rewrite Hs in H1. simpl in H1. fold st1 in H1.
  assert (App.messages st2 = App.onFinish_messages (Some (length pre)) content
            stats (App.messages st1)) as H2 by apply onFinish_messages_state.
  clearbody st2. rewrite H1 in H2. rewrite (proj1 (writeActive_last _ _ _ _)) in H2.
  unfold App.writeActive in H2. simpl in H2.
  rewrite array_set_in_range in H2 by (simpl; lia). simpl in H2.
  edestruct (handleVersionChange_valid (length pre) 0 st2) as (st3 & Hv3 & Hms3 & _).
  { rewrite H2. apply lookup_end. }
  { reflexivity. }
  { reflexivity. }
  rewrite H2, insert_last in Hms3.
  edestruct (handleVersionChange_valid (length pre) 1 st3) as (st4 & Hv4 & Hms4 & _).
  { rewrite Hms3. apply lookup_end. }
  { reflexivity. }
  { reflexivity. }
  rewrite Hms3, insert_last in Hms4.
  eexists st3, _, st4, _, _, _.
  split; [exact Hv3|]. split; [exact Hms3|]. do 3 (split; [reflexivity|]).
  split; [exact Hv4|]. split; [exact Hms4|]. by repeat split.
Qed.

Lemma regenerated_answers_both_kept_witness :
  let st1 :=
    (App.handleRegenerate
       (Demo.chat [Demo.userTurn "q"; Demo.assistantTurn "a"] false)).1 in
  let st2 := (App.onFinish "c1" (Some 1%nat) "b" Demo.someStats st1).1 in
  exists st3 effs3 m3,
    App.handleVersionChange 1 0 st2 = Some (st3, effs3) /\
    App.messages st3 = [Demo.userTurn "q"] ++ [m3] /\
    App.content m3 = "a".
Proof.
  destruct (regenerated_answers_both_kept
              (Demo.chat [Demo.userTurn "q"; Demo.assistantTurn "a"] false)
              [Demo.userTurn "q"] (Demo.assistantTurn "a") "c1" "b"
              Demo.someStats eq_refl eq_refl eq_refl eq_refl)
    as (st3 & effs3 & _ & _ & m3 & _ & Hv & Hms & Hc & _).
  exact (ex_intro _ st3 (ex_intro _ effs3 (ex_intro _ m3 (conj Hv (conj Hms Hc))))).
Defined.

(** X18.  An error that finds no turn to replace, because the target index
    was never set or names no turn, is shown as a new last turn; the turns
    that are there, with what has streamed into them, are left as they
    are. *)
Theorem error_without_target_appends
    (targetIndex : option nat) (error : Llm.Error) (st : App.State) :
  Llm.isAbortError error = false ->
  (targetIndex = None \/
   exists t, targetIndex = Some t /\ (length (App.messages st) <= t)%nat) ->
  let st' := (App.onError targetIndex error st).1 in
  App.messages st' = App.messages st ++ [App.errorMsg error] /\
  App.isLoading st' = false /\
  App.abortControllerRef st' = None.
Proof.
  intros He Ht. unfold App.onError. rewrite He. simpl.
  unfold App.onError_messages.
  destruct Ht as [->|(t & -> & Hlen)]; [done|]. simpl.
  by rewrite lookup_ge_None_2.
Qed.

Lemma error_without_target_appends_witness :
  App.messages
    (App.onError None Demo.networkError
       (Demo.chat [Demo.userTurn "q"; Demo.assistantTurn "partial"] true)).1 =
  [Demo.userTurn "q"; Demo.assistantTurn "partial"] ++
  [App.errorMsg Demo.networkError].
Proof.
  apply (error_without_target_appends None Demo.networkError
           (Demo.chat [Demo.userTurn "q"; Demo.assistantTurn "partial"] true)
           eq_refl).
  by left.
Defined.

(** X19.  Sending a message and the end of its generation: the request is
    made with the turns so far and the new user turn, for the chat on
    screen or, when there is none, for a new chat named by the clock; when
    the generation ends, the list is the old turns, the user turn and one
    assistant turn with the final content and statistics, nothing is in
    flight any more, and this list is what is handed over for saving. *)
Theorem sent_message_answered
    (now today : Z) (text : string) (imgs : option (list string))
    (st : App.State) (content : string) (stats : Llm.Stats) :
  let userMsg :=
    {| App.role := App.user; App.content := text; App.images := imgs;
       App.stats := None; App.siblings := None; App.siblingIndex := None |} in
  let answer :=
    {| App.role := App.assistant; App.content := content; App.images := None;
       App.stats := Some (App.messageStats stats); App.siblings := None;
       App.siblingIndex := None |} in
  let activeId :=
    match App.truthyId (App.currentChatId st) with
    | Some chat => chat
    | None => NilZero.string_of_int (Z.to_int now)
    end in
  let target := length (App.messages st ++ [userMsg]) in
  let out := App.handleSendMessage now today text imgs st in
  let fin := App.onFinish activeId (Some target) content stats out.1 in
  last out.2 =
    Some (App.streamCompletion (App.messages st ++ [userMsg]) activeId
            (Some target) (App.controllersCreated st)) /\
  App.currentChatId out.1 = Some activeId /\
  App.isLoading out.1 = true /\
  App.messages fin.1 = App.messages st ++ [userMsg; answer] /\
  App.isLoading fin.1 = false /\
  App.abortControllerRef fin.1 = None /\
  fin.2 = [App.getSessionThenUpdate activeId (App.messages fin.1)].
Proof.
  simpl. unfold App.handleSendMessage.
  set (userMsg := {| App.role := App.user; App.content := text;
                     App.images := imgs; App.stats := None;
                     App.siblings := None; App.siblingIndex := None |}).
  assert (App.onFinish_messages (Some (length (App.messages st ++ [userMsg])))
              content stats
              ((App.messages st ++ [userMsg]) ++
               [{| App.role := App.assistant; App.content := "";
                   App.images := None; App.stats := None;
                   App.siblings := None; App.siblingIndex := None |}]) =
            App.messages st ++
            [userMsg;
             {| App.role := App.assistant; App.content := content;
                App.images := None;
                App.stats := Some (App.messageStats stats);
                App.siblings := None; App.siblingIndex := None |}]) as Hw.
  { rewrite (proj1 (writeActive_last _ _ _ _)). by rewrite <- app_assoc. }
  destruct (App.truthyId (App.currentChatId st)) as [chat|] eqn:Eid.
  - assert (App.currentChatId st = Some chat /\ Js.truthy chat = true)
      as [Hcur Htr].
    { unfold App.truthyId in Eid. destruct (App.currentChatId st) as [c|]; [|done].
      destruct (Js.truthy c) eqn:E; [|done]. by injection Eid as ->. }
    destruct (App.find_session chat (App.sessions st)); simpl;
      unfold App.onFinish; simpl; rewrite Htr, last_snoc || rewrite Htr;
      rewrite Hw; by repeat split.
  - simpl. unfold App.onFinish. simpl. rewrite string_of_int_truthy.
    rewrite Hw. by repeat split.
Qed.

(** X20.  Stopping aborts the controller whose signal the generation in
    flight was given, clears the in-flight state and leaves the messages,
    with what has streamed into them, as they are; a second stop does
    nothing. *)
Theorem stop_aborts_generation
    (messagesToUse : list App.Message) (sessionId : string)
    (targetIndex : option nat) (st : App.State) :
  let out := App.processGeneration messagesToUse sessionId targetIndex st in
  let stopped := App.handleStop out.1 in
  (exists target,
     out.2 = [App.streamCompletion messagesToUse sessionId target
                (App.controllersCreated st)]) /\
  stopped.2 = [App.abort (App.controllersCreated st)] /\
  App.isLoading stopped.1 = false /\
  App.messages stopped.1 = App.messages out.1 /\
  App.handleStop stopped.1 = (stopped.1, []).
Proof.
  unfold App.processGeneration. destruct targetIndex as [t|]; simpl;
    (split; [by eexists|done]).
Qed.

(** X21.  A generation started while another is in flight takes over the
    only reference to an abort controller: stopping then aborts the second
    generation's controller, and no later stop aborts the first one's. *)
Theorem second_generation_orphans_first
    (ms1 ms2 : list App.Message) (id1 id2 : string) (t1 t2 : option nat)
    (st : App.State) :
  let first := App.processGeneration ms1 id1 t1 st in
  let second := App.processGeneration ms2 id2 t2 first.1 in
  let stopped := App.handleStop second.1 in
  (exists target,
     first.2 = [App.streamCompletion ms1 id1 target (App.controllersCreated st)]) /\
  (exists target,
     second.2 =
       [App.streamCompletion ms2 id2 target (S (App.controllersCreated st))]) /\
  stopped.2 = [App.abort (S (App.controllersCreated st))] /\
  App.handleStop stopped.1 = (stopped.1, []).
Proof.
  unfold App.processGeneration.
  destruct t1 as [a|], t2 as [b|]; simpl; by repeat split; eexists.
Qed.

(** X22.  [updateSession] puts the session in the place of the one with
    its id: the ids of the list stay, in order; looking the id up afterwards
    gives the session, when the id was in the list; sessions with other ids
    are found as before; and when the id is not in the list, the list is
    unchanged though the session is still saved. *)
Theorem updateSession_replaces (session : App.ChatSession) (st : App.State) :
  let out := App.updateSession session st in
  map App.id (App.sessions out.1) = map App.id (App.sessions st) /\
  (is_Some (App.find_session (App.id session) (App.sessions st)) ->
   App.find_session (App.id session) (App.sessions out.1) = Some session) /\
  (forall i, i <> App.id session ->
     App.find_session i (App.sessions out.1) =
     App.find_session i (App.sessions st)) /\
  (App.find_session (App.id session) (App.sessions st) = None ->
   App.sessions out.1 = App.sessions st) /\
  out.2 = [App.saveSession session].
Proof.
  simpl. split; [|split; [|split; [|split]]].
  - rewrite map_map. apply map_ext_in. intros s _.
    destruct (String.eqb (App.id s) (App.id session)) eqn:E; [|done].
    by apply String.eqb_eq in E.
  - apply find_session_updated.
  - intros i Hi. by apply find_session_other.
  - intros H%find_session_none. induction H as [|s ss Hs H IH]; [done|].
    simpl. by rewrite Hs, IH.
  - done.
Qed.

(** X23.  The title of a new chat has at most 33 characters, and a message
    of at most 30 characters is its own title, trimmed. *)
Theorem session_title_short (content : string) :
  (String.length (App.sessionTitle content) <= 33)%nat /\
  ((String.length content <= 30)%nat ->
   App.sessionTitle content = Js.trim content).
Proof.
  unfold App.sessionTitle. split.
  - rewrite length_append.
    pose proof (length_substring 30 (Js.trim content)).
    destruct (30 <? String.length content)%nat; simpl; lia.
  - intros H. apply Nat.ltb_ge in H as Hlt. rewrite Hlt, append_nil_r.
    apply substring_all. pose proof (length_trim content). lia.
Qed.


(** * Further properties of the other handlers *)

Section ChatsFacts.

Lemma find_session_id (i : string) (ss : list App.ChatSession)
    (s : App.ChatSession) :
  App.find_session i ss = Some s -> App.id s = i.
Proof.
  unfold App.find_session. intros H. apply find_some in H as [_ H].
  by apply String.eqb_eq.
Qed.

Lemma truthyId_some (c : option string) (chat : string) :
  App.truthyId c = Some chat -> c = Some chat.
Proof.
  unfold App.truthyId. destruct c as [i|]; [|done].
  destruct (Js.truthy i); [|done]. by intros [= ->].
Qed.

Lemma find_session_filtered (id : string) (ss : list App.ChatSession) :
  App.find_session id
    (List.filter (fun s => negb (String.eqb (App.id s) id)) ss) = None /\
  forall i, i <> id ->
    App.find_session i
      (List.filter (fun s => negb (String.eqb (App.id s) id)) ss) =
    App.find_session i ss.
Proof.
  unfold App.find_session. induction ss as [|s ss [IH1 IH2]]; [done|]. simpl.
  destruct (String.eqb (App.id s) id) eqn:E; simpl.
  - split; [done|]. intros i Hi. rewrite IH2 by done.
    apply String.eqb_eq in E.
    assert (String.eqb (App.id s) i = false) as ->
      by (apply String.eqb_neq; congruence).
    done.
  - rewrite E. split; [done|]. intros i Hi.
    destruct (String.eqb (App.id s) i); [done|by apply IH2].
Qed.

Lemma dropIndex_past {A} (from index : nat) (l : list A) :
  (index < from)%nat -> Chats.dropIndex from index l = l.
Proof.
  revert from. induction l as [|x l IH]; intros from H; [done|].
  simpl. assert ((from =? index)%nat = false) as -> by (apply Nat.eqb_neq; lia).
  by rewrite IH by lia.
Qed.

Lemma dropIndex_delete {A} (from index : nat) (l : list A) :
  (from <= index)%nat ->
  Chats.dropIndex from index l =
  take (index - from) l ++ drop (S (index - from)) l.
Proof.
  revert from. induction l as [|x l IH]; intros from H.
  - by rewrite take_nil, drop_nil.
  - simpl. destruct (from =? index)%nat eqn:E.
    + apply Nat.eqb_eq in E as ->. rewrite Nat.sub_diag. simpl.
      by rewrite drop_0, dropIndex_past by lia.
    + apply Nat.eqb_neq in E. rewrite IH by lia.
      replace (index - from)%nat with (S (index - S from)) by lia. done.
Qed.

Lemma estimateTokens_bounds (s : string) :
  Z.of_nat (String.length s) <= 4 * Llm.estimateTokens s
  <= Z.of_nat (String.length s) + 3.
Proof.
  unfold Llm.estimateTokens.
  pose proof (Z.div_mod (Z.of_nat (String.length s) + 3) 4 ltac:(lia)).
  pose proof (Z.mod_pos_bound (Z.of_nat (String.length s) + 3) 4 ltac:(lia)).
  lia.
Qed.

Lemma contextTokens_fold (ms : list App.Message) (a b : Z) (n : nat) :
  b <= 4 * a <= b + 3 * Z.of_nat n ->
  fold_left (fun acc m => acc + Z.of_nat (String.length (App.content m))) ms b
  <= 4 * fold_left (fun acc m => acc + Llm.estimateTokens (App.content m)) ms a
  <= fold_left (fun acc m => acc + Z.of_nat (String.length (App.content m))) ms b
     + 3 * Z.of_nat (n + length ms).
Proof.
  revert a b n. induction ms as [|m ms IH]; intros a b n H.
  - simpl. rewrite Nat.add_0_r. lia.
  - simpl. pose proof (estimateTokens_bounds (App.content m)).
    replace (n + S (length ms))%nat with (S n + length ms)%nat by lia.
    apply IH. lia.
Qed.

End ChatsFacts.

(** The stable sort by a comparison that is total and transitive. *)

Section Sorting.

Context {A : Type} (cmp : A -> A -> Z).

Hypothesis cmp_total : forall x y, 0 < cmp x y -> cmp y x <= 0.
Hypothesis cmp_trans : forall x y z, cmp x y <= 0 -> cmp y z <= 0 -> cmp x z <= 0.

Lemma insertSorted_perm (x : A) (l : list A) :
  Chats.insertSorted cmp x l ≡ₚ x :: l.
Proof.
  induction l as [|y l IH]; [done|]. simpl.
  destruct (0 <? cmp x y); [|done]. rewrite IH. apply Permutation_swap.
Qed.

Lemma sort_perm (l : list A) : Chats.sort cmp l ≡ₚ l.
Proof.
  induction l as [|x l IH]; [done|]. simpl.
  by rewrite insertSorted_perm, IH.
Qed.

Lemma insertSorted_sorted (x : A) (l : list A) :
  StronglySorted (fun a b => cmp a b <= 0) l ->
  StronglySorted (fun a b => cmp a b <= 0) (Chats.insertSorted cmp x l).
Proof.
  induction 1 as [|y l Hs IH Hy]; [repeat constructor|]. simpl.
  destruct (0 <? cmp x y) eqn:E.
  - apply Z.ltb_lt in E. constructor; [done|].
    rewrite insertSorted_perm. constructor; [by apply cmp_total|done].
  - apply Z.ltb_ge in E. constructor; [by constructor|].
    constructor; [done|]. eapply Forall_impl; [exact Hy|].
    intros z Hz. by eapply cmp_trans.
Qed.

Lemma sort_sorted (l : list A) :
  StronglySorted (fun a b => cmp a b <= 0) (Chats.sort cmp l).
Proof.
  induction l as [|x l IH]; [constructor|]. by apply insertSorted_sorted.
Qed.

End Sorting.

Section FavoriteOrder.

Lemma byFavoriteThenDate_total (x y : App.ChatSession) :
  0 < Chats.byFavoriteThenDate x y -> Chats.byFavoriteThenDate y x <= 0.
Proof.
  unfold Chats.byFavoriteThenDate.
  destruct (Chats.favorite x), (Chats.favorite y); simpl; lia.
Qed.

Lemma byFavoriteThenDate_trans (x y z : App.ChatSession) :
  Chats.byFavoriteThenDate x y <= 0 -> Chats.byFavoriteThenDate y z <= 0 ->
  Chats.byFavoriteThenDate x z <= 0.
Proof.
  unfold Chats.byFavoriteThenDate.
  destruct (Chats.favorite x), (Chats.favorite y), (Chats.favorite z);
    simpl; lia.
Qed.

Lemma sorted_lookup {B} (R : B -> B -> Prop) (l : list B) (i j : nat) (a b : B) :
  StronglySorted R l -> (i < j)%nat ->
  l !! i = Some a -> l !! j = Some b -> R a b.
Proof.
  intros Hs. revert i j. induction Hs as [|x l Hs IH Hx]; intros i j Hij Ha Hb.
  - done.
  - destruct j as [|j]; [lia|]. simpl in Hb. destruct i as [|i].
    + injection Ha as <-. rewrite Forall_forall in Hx. apply Hx.
      by eapply list_elem_of_lookup_2.
    + simpl in Ha. apply (IH i j); [lia|done|done].
Qed.

End FavoriteOrder.

(** X24.  Deleting a turn removes the turn at that index and no other; an
    index past the end removes nothing; the in-flight state is not looked
    at; and the list that results is saved when the chat on screen has a
    session. *)
Theorem delete_message_removes_one (index : nat) (st : App.State) :
  let out := Chats.handleDeleteMessage index st in
  App.messages out.1 =
    take index (App.messages st) ++ drop (S index) (App.messages st) /\
  ((length (App.messages st) <= index)%nat ->
   App.messages out.1 = App.messages st) /\
  App.isLoading out.1 = App.isLoading st /\
  out.2 =
    match App.truthyId (App.currentChatId st)
            ≫= (fun chat => App.find_session chat (App.sessions st)) with
    | Some s => [App.saveSession (App.with_messages s (App.messages out.1))]
    | None => []
    end.
Proof.
  assert (Chats.dropIndex 0 index (App.messages st) =
          take index (App.messages st) ++ drop (S index) (App.messages st)) as Hd
    by (rewrite dropIndex_delete by lia; by rewrite Nat.sub_0_r).
  unfold Chats.handleDeleteMessage. simpl.
  destruct (App.truthyId (App.currentChatId st)) as [chat|]; simpl;
    [destruct (App.find_session chat (App.sessions st)); simpl|];
    rewrite ?Hd; (split; [done|]); (split; [|done]);
    intros Hlen; by rewrite take_ge, drop_ge, app_nil_r by lia.
Qed.

(** X25.  The context estimate is a quarter of the characters of the turns
    and the system prompt, rounded up text by text: four times the estimate
    is at least the number of characters and exceeds it by at most three
    per text. *)
Theorem context_tokens_bounds (ms : list App.Message) (systemPrompt : string) :
  let chars :=
    fold_left (fun acc m => acc + Z.of_nat (String.length (App.content m))) ms 0
    + Z.of_nat (String.length systemPrompt) in
  chars <= 4 * Chats.contextTokens ms systemPrompt
  <= chars + 3 * (Z.of_nat (length ms) + 1).
Proof.
  simpl. unfold Chats.contextTokens.
  pose proof (contextTokens_fold ms 0 0 0 ltac:(lia)) as H.
  pose proof (estimateTokens_bounds systemPrompt). simpl in H. lia.
Qed.

(** X26.  Toggling the favourite mark of a chat flips the mark of the
    sessions with that id and reorders the list: it holds the same sessions,
    no favourite comes after a session that is not one, and among sessions
    with the same mark none comes after an older one. *)
Theorem toggle_favorite_reorders (id : string) (st : App.State) :
  let out := Chats.toggleSessionFavorite id st in
  App.sessions out.1 ≡ₚ
    map (fun s => if String.eqb (App.id s) id then Chats.flipFavorite s else s)
      (App.sessions st) /\
  (forall i j a b, (i < j)%nat ->
     App.sessions out.1 !! i = Some a -> App.sessions out.1 !! j = Some b ->
     (Chats.favorite b = true -> Chats.favorite a = true) /\
     (Chats.favorite a = Chats.favorite b -> App.date b <= App.date a)) /\
  out.2 = [Chats.toggleFavorite id].
Proof.
  simpl. split; [apply sort_perm|]. split; [|done].
  intros i j a b Hij Ha Hb.
  pose proof (sorted_lookup _ _ i j a b
                (sort_sorted Chats.byFavoriteThenDate byFavoriteThenDate_total
                   byFavoriteThenDate_trans _) Hij Ha Hb) as H.
  simpl in H. unfold Chats.byFavoriteThenDate in H.
  destruct (Chats.favorite a), (Chats.favorite b); simpl in H; split;
    try done; try lia.
Qed.

(** X27.  Deleting a chat leaves no session with its id and keeps the
    others; the view is reset to a new chat when the deleted chat is the one
    on screen, and is left alone otherwise; the in-flight state stays as it
    is. *)
Theorem delete_chat_removes_session
    (d : Chats.Defaults) (id : string) (st : App.State) :
  let out := Chats.handleDeleteChat d id st in
  App.find_session id (App.sessions out.1) = None /\
  (forall i, i <> id ->
     App.find_session i (App.sessions out.1) =
     App.find_session i (App.sessions st)) /\
  (App.currentChatId st = Some id ->
   App.messages out.1 = [] /\ App.currentChatId out.1 = None) /\
  (App.currentChatId st <> Some id ->
   App.messages out.1 = App.messages st /\
   App.currentChatId out.1 = App.currentChatId st) /\
  App.isLoading out.1 = App.isLoading st /\
  out.2 = [Chats.deleteSession id].
Proof.
  unfold Chats.handleDeleteChat. simpl.
  destruct (find_session_filtered id (App.sessions st)) as [H1 H2].
  case_bool_decide; simpl; repeat split; try done.
Qed.

(** X28.  Leaving a chat for a new one and coming back: the new chat starts
    empty with the default settings, and selecting the chat again shows its
    turns and its temperature as they were; its system prompt and reasoning
    effort come back too unless they were unset, in which case the defaults
    take their place. *)
Theorem leave_and_return
    (d : Chats.Defaults) (st : App.State) (chat : string) (s : App.ChatSession) :
  App.isLoading st = false ->
  App.truthyId (App.currentChatId st) = Some chat ->
  App.find_session chat (App.sessions st) = Some s ->
  let left := (Chats.handleNewChat d st).1 in
  let back := (Chats.handleSelectChat d chat left).1 in
  App.messages left = [] /\
  App.currentChatId left = None /\
  App.systemPrompt left = Chats.defaultSystemPrompt d /\
  App.messages back = App.messages st /\
  App.currentChatId back = Some chat /\
  App.temperature back = App.temperature st /\
  App.systemPrompt back =
    Js.or (Some (App.systemPrompt st)) (Chats.defaultSystemPrompt d) /\
  App.reasoningEffort back =
    match App.reasoningEffort st with
    | Some e => Some e
    | None => Chats.defaultReasoningEffort d
    end.
Proof.
  intros Hl Hc Hf. pose proof (find_session_id _ _ _ Hf) as Hid. subst chat.
  unfold Chats.handleNewChat, Chats.handleSelectChat, Chats.saveCurrent.
  rewrite Hl, Hc, Hf. simpl. rewrite Hl. simpl.
  pose proof (find_session_updated (App.with_chat s (App.messages st) st)
                (App.sessions st)) as Hu.
  simpl in Hu. rewrite Hu by (by rewrite Hf). simpl.
  by repeat split.
Qed.

Lemma leave_and_return_witness :
  let st := Demo.chat [Demo.userTurn "q"; Demo.assistantTurn "a"] false in
  let left := (Chats.handleNewChat Chats.someDefaults st).1 in
  let back := (Chats.handleSelectChat Chats.someDefaults "c1" left).1 in
  App.messages left = [] /\
  App.messages back = [Demo.userTurn "q"; Demo.assistantTurn "a"] /\
  App.systemPrompt back = "Be brief.".
Proof.
  destruct (leave_and_return Chats.someDefaults
              (Demo.chat [Demo.userTurn "q"; Demo.assistantTurn "a"] false)
              "c1" _ eq_refl eq_refl eq_refl)
    as (H1 & _ & _ & H2 & _ & _ & H3 & _).
  exact (conj H1 (conj H2 H3)).
Defined.

(** X29.  Where [MainChat] offers to regenerate, [handleRegenerate] acts on
    that very turn: the offer is made for the last turn only, when it is an
    assistant turn and nothing is in flight, and the handler then replaces
    that turn by one with empty content whose last sibling is the active,
    empty one. *)
Theorem offered_regeneration_acts (st : App.State) (index : nat) :
  Chats.regenerateOffered (App.messages st) (App.isLoading st) index = true ->
  App.isLoading st = false /\
  index = (length (App.messages st) - 1)%nat /\
  exists m sibs,
    App.messages (App.handleRegenerate st).1 = <[index := m]> (App.messages st) /\
    App.messages (App.handleRegenerate st).1 !! index = Some m /\
    App.content m = "" /\
    App.siblings m = Some sibs /\
    App.siblingIndex m = Some (length sibs - 1)%nat /\
    Js.array_get sibs (length sibs - 1) =
      Some {| App.s_role := Some App.assistant; App.s_content := "";
              App.s_stats := None |}.
Proof.
  unfold Chats.regenerateOffered.
  destruct (App.messages st !! index) as [msg|] eqn:Hm; [|done].
  destruct (App.role msg) eqn:Hr; try done.
  intros [Hi Hl]%andb_prop. apply Nat.eqb_eq in Hi.
  apply negb_true_iff in Hl. split; [done|]. split; [done|].
  assert (exists pre, App.messages st = pre ++ [msg] /\ index = length pre)
    as (pre & Hpre & Hlen).
  { pose proof (lookup_lt_Some _ _ _ Hm) as Hlt.
    exists (take index (App.messages st)). split.
    - rewrite <- (take_drop index (App.messages st)) at 1. f_equal.
      rewrite (drop_S _ _ _ Hm), drop_ge by lia. done.
    - rewrite length_take. lia. }
  pose proof (handleRegenerate_messages st pre msg Hl Hpre Hr) as H.
  simpl in H. eexists _, _.
  rewrite H, Hpre, Hlen, insert_last, lookup_end. repeat split.
  - simpl. f_equal. rewrite length_app. simpl. lia.
  - simpl. unfold Js.array_get. rewrite length_app. simpl.
    replace (length _ + 1 - 1)%nat with
      (length (match App.siblings msg with
               | Some sibs => sibs
               | None => [Some {| App.s_role := Some App.assistant;
                                  App.s_content := App.content msg;
                                  App.s_stats := App.stats msg |}]
               end) + 0)%nat by lia.
    by rewrite lookup_app_r, Nat.add_0_r, Nat.sub_diag by lia.
Qed.

Lemma offered_regeneration_acts_witness :
  exists m,
    App.messages
      (App.handleRegenerate
         (Demo.chat [Demo.userTurn "q"; Demo.assistantTurn "a"] false)).1
      !! 1%nat = Some m /\
    App.content m = "".
Proof.
  destruct (offered_regeneration_acts
              (Demo.chat [Demo.userTurn "q"; Demo.assistantTurn "a"] false) 1
              eq_refl) as (_ & _ & m & sibs & _ & Hm & Hc & _).
  exact (ex_intro _ m (conj Hm Hc)).
Defined.
